(** * LangChain_Chatbot: the retrieval-augmented answer pipeline and the
      conversation store, embedded from the Python sources.

    - [Py]        : the Python string and list primitives the sources use
    - [RagChain]  : src/src/rag_chain.py  (format_docs, format_chat_history,
                    RAG_PROMPT_TEMPLATE, the chain of create_rag_chain)
    - [Database]  : src/src/database.py   (the three tables with their
                    foreign keys and column widths, create_conversation,
                    add_message, the two deletions and the two queries)
                    over an explicit store
    - [App]       : src/app.py            (the chat-input handler of
                    show_chat_page with its stream_response generator)
    - [DocLoader] : src/src/doc_loader.py (load_documents_from_urls,
                    split_documents, load_all_documentation)
    - [RebuildVectorstore] : src/rebuild_vectorstore.py
                    (filter_good_documents, rebuild_vectorstore)
    - [Auth]      : src/src/auth.py       (register_user, login_user)

    Python [str] values are modelled by [string]; a character stands for the
    code point of the same number (0..255).  Dictionaries are [gmap]s, the
    conversations table is a [gmap] from primary key to row. *)

From Stdlib Require Import Ascii NArith.
From Stdlib Require String DecimalString.
From stdpp Require Import gmap strings list fin_maps sorting.

(* ===================================================================== *)
(** ** Python primitives *)
(* ===================================================================== *)

Module Py.

(** Line feed and the double-quote character. *)
Definition LF : ascii := ascii_of_nat 10.
Definition nl : string := String LF EmptyString.
Definition dq : string := String (ascii_of_nat 34) EmptyString.

(** [len(s)] *)
Definition len (s : string) : nat := String.length s.

(** [str.isspace] on one character: the white space of code points below
    256 is TAB..CR, FS..US, SPACE, NEL and NBSP. *)
Definition isspace (c : ascii) : bool :=
  let n := nat_of_ascii c in
  ((9 <=? n) && (n <=? 13)) || ((28 <=? n) && (n <=? 32))
  || (n =? 133) || (n =? 160).

Fixpoint lstrip (s : string) : string :=
  match s with
  | EmptyString => EmptyString
  | String c s' => if isspace c then lstrip s' else s
  end.

Fixpoint rstrip (s : string) : string :=
  match s with
  | EmptyString => EmptyString
  | String c s' =>
      match rstrip s' with
      | EmptyString => if isspace c then EmptyString else String c EmptyString
      | r => String c r
      end
  end.

(** [s.strip()] *)
Definition strip (s : string) : string := rstrip (lstrip s).

(** [needle in hay] *)
Fixpoint contains (needle hay : string) : bool :=
  String.prefix needle hay
  || match hay with
     | EmptyString => false
     | String _ h => contains needle h
     end.

(** [hay.count(needle)] for a non-empty needle: occurrences counted from
    the left without overlap. *)
Fixpoint count_from (needle : string) (skip : nat) (hay : string) : nat :=
  match hay with
  | EmptyString => 0
  | String _ h =>
      match skip with
      | S k => count_from needle k h
      | O => if String.prefix needle hay
             then S (count_from needle (len needle - 1) h)
             else count_from needle 0 h
      end
  end.
Definition count (needle hay : string) : nat := count_from needle 0 hay.

(** [s.split('\n')]: never empty, the empty string gives one empty line. *)
Fixpoint split_lines (s : string) : list string :=
  match s with
  | EmptyString => [EmptyString]
  | String c s' =>
      let r := split_lines s' in
      if Ascii.eqb c LF then EmptyString :: r
      else match r with
           | l :: ls => String c l :: ls
           | [] => [String c EmptyString]
           end
  end.

(** [sep.join(l)] *)
Fixpoint join (sep : string) (l : list string) : string :=
  match l with
  | [] => EmptyString
  | [x] => x
  | x :: xs => x +:+ sep +:+ join sep xs
  end.

(** [s.upper()] on the code points below 256: the letters a..z and the
    accented small letters 224..254 (not the division sign, 247) move down
    by 32, the sharp s (223) becomes [SS], every other character is kept.
    The micro sign (181) and y with diaeresis (255) have their upper case
    above 255; they are kept and lie outside what the model covers. *)
Definition upper_char (c : ascii) : string :=
  let n := nat_of_ascii c in
  if ((97 <=? n) && (n <=? 122))
     || ((224 <=? n) && (n <=? 254) && negb (n =? 247))
  then String (ascii_of_nat (n - 32)) EmptyString
  else if n =? 223 then "SS"
  else String c EmptyString.
Fixpoint upper (s : string) : string :=
  match s with
  | EmptyString => EmptyString
  | String c s' => upper_char c +:+ upper s'
  end.

(** [str(n)] for a non-negative integer. *)
Definition str_of_nat (n : nat) : string :=
  DecimalString.NilEmpty.string_of_uint (Nat.to_uint n).

(** [s[:n]] *)
Definition slice_to (n : nat) (s : string) : string := String.substring 0 n s.

(** [l[-n:]] for a list: the last [n] elements, all of them when the list
    is shorter. *)
Definition last_n {A} (n : nat) (l : list A) : list A :=
  drop (length l - n) l.

(** [s * n] *)
Fixpoint times (s : string) (n : nat) : string :=
  match n with
  | O => EmptyString
  | S k => s +:+ times s k
  end.

(** [d.get(key, default)] on a dictionary of strings. *)
Definition dict_get (d : gmap string string) (key default : string) : string :=
  match d !! key with
  | Some v => v
  | None => default
  end.

(** Exceptions carry the text that [str(e)] shows.  For the two classes
    that the database layer raises the text is the message of the engine;
    the statement and the parameters that the layer appends to it are left
    out. *)
Inductive exn : Type :=
| Exception (message : string)
| IntegrityError (message : string)
| DataError (message : string).
Definition str_of_exn (e : exn) : string :=
  match e with
  | Exception m => m
  | IntegrityError m => m
  | DataError m => m
  end.

Inductive result (A : Type) : Type :=
| Ok (a : A)
| Raise (e : exn).
Arguments Ok {A} a.
Arguments Raise {A} e.

(** Code that updates a state [S] and may raise: the state reached is
    returned in both cases. *)
Definition Eff (S A : Type) : Type := S -> S * result A.

Definition ret {S A} (a : A) : Eff S A := fun s => (s, Ok a).
Definition raise {S A} (e : exn) : Eff S A := fun s => (s, Raise e).
Definition bind {S A B} (m : Eff S A) (k : A -> Eff S B) : Eff S B :=
  fun s => match m s with
           | (s', Ok a) => k a s'
           | (s', Raise e) => (s', Raise e)
           end.
Definition get {S} : Eff S S := fun s => (s, Ok s).
Definition modify {S} (f : S -> S) : Eff S unit := fun s => (f s, Ok tt).

Notation "'let*' x ':=' m 'in' k" := (bind m (fun x => k))
  (at level 10, x pattern, m at level 100, k at level 200).

End Py.

(* ===================================================================== *)
(** ** src/src/rag_chain.py *)
(* ===================================================================== *)

Module RagChain.
Import Py.

(** A LangChain [Document]. *)
Record Document : Type := mkDocument {
  page_content : string;
  metadata : gmap string string
}.

(** *** format_chat_history *)

(** The body of the [for human, ai in history] loop, on the list
    [formatted] built so far. *)
Fixpoint history_loop (history : list (string * string))
         (formatted : list string) : list string :=
  match history with
  | [] => formatted
  | (human, ai) :: rest =>
      history_loop rest
        (formatted ++ ["User: " +:+ human] ++ ["Assistant: " +:+ ai])
  end.

Definition format_chat_history (history : list (string * string)) : string :=
  match history with
  | [] => "No previous conversation."
  | _ => join nl (history_loop history [])
  end.

(** The History Window: app.py hands [history[-3:]] to the chain, which
    applies [format_chat_history] to it. *)
Definition history_window (history : list (string * string)) : string :=
  format_chat_history (last_n 3 history).

(** *** format_docs *)

(** The three guards that [continue] past a page (lines 80-85). *)
Definition skip_page (content : string) : bool :=
  contains "Redirecting" content
  || (len (strip content) <? 100)
  || (contains "Skip to main content" content && (len content <? 200)).

Definition navigation_lines : list string :=
  [EmptyString; "Docs"; "Search"; "Home"; "API Reference"; "Tutorials"].

(** The inner loop over [lines]: strip each, drop the navigation ones. *)
Fixpoint clean_loop (lines clean_lines : list string) : list string :=
  match lines with
  | [] => clean_lines
  | line :: rest =>
      let line := strip line in
      if bool_decide (line ∈ navigation_lines)
      then clean_loop rest clean_lines
      else clean_loop rest (clean_lines ++ [line])
  end.

Definition clean_content (content : string) : string :=
  join " " (clean_loop (split_lines content) []).

(** The entry appended for a document when [formatted] has [n] entries. *)
Definition entry (n : nat) (doc : Document) : string :=
  let source := dict_get (metadata doc) "source_framework" "unknown" in
  "[Document " +:+ str_of_nat (n + 1) +:+ " - " +:+ upper source +:+ "]"
    +:+ nl +:+ clean_content (page_content doc) +:+ nl.

(** The [for i, doc in enumerate(docs, 1)] loop with its [continue]s and
    its [break]. *)
Fixpoint format_docs_loop (docs : list Document) (formatted : list string)
  : list string :=
  match docs with
  | [] => formatted
  | doc :: rest =>
      let content := page_content doc in
      if skip_page content then format_docs_loop rest formatted
      else
        let formatted' :=
          if 50 <? len (clean_content content)
          then formatted ++ [entry (length formatted) doc]
          else formatted in
        if 5 <=? length formatted' then formatted'
        else format_docs_loop rest formatted'
  end.

Definition formatted_docs (docs : list Document) : list string :=
  format_docs_loop docs [].

Definition separator : string := nl +:+ "---" +:+ nl.

Definition no_documentation : string :=
  "No relevant documentation found in the knowledge base.".

Definition format_docs (docs : list Document) : string :=
  match formatted_docs docs with
  | [] => no_documentation
  | formatted => join separator formatted
  end.

(** *** RAG_PROMPT_TEMPLATE (lines 33-60) *)

Definition RAG_PROMPT_TEMPLATE : string := join nl [
  "You are an expert assistant specialized in LangChain, LangGraph, and LangSmith frameworks.";
  EmptyString;
  "Your job is to help developers understand and use these frameworks effectively.";
  EmptyString;
  "INSTRUCTIONS:";
  "1. First, try to answer based on the provided context from documentation";
  "2. If the context is relevant, use it to provide a detailed answer with code examples";
  "3. If the context doesn't directly answer the question but is related, use your knowledge of LangChain/LangGraph/LangSmith to help";
  "4. Include code examples when relevant";
  "5. Mention which framework (LangChain, LangGraph, or LangSmith) the answer relates to";
  EmptyString;
  "CONTEXT FROM DOCUMENTATION:";
  "{context}";
  EmptyString;
  EmptyString;
  "CHAT HISTORY (Previous context - IGNORE if unrelated to new question):";
  "{chat_history}";
  EmptyString;
  "LATEST USER QUESTION (Focus your answer here):";
  "{question}";
  EmptyString;
  "    Provide a comprehensive, beginner-friendly explanation.";
  "    - Break down complex concepts into simple terms.";
  "    - Uses analogies if helpful.";
  "    - Provide a detailed answer that teaches    - The user wants a detailed, comprehensive answer.";
  "    - If the " +:+ dq +:+ "Context" +:+ dq +:+ " is just a code snippet (like a specific function), you MUST first define the general concept using your own knowledge, then explain how the code relates to it.";
  "    - If the answer is completely missing from the context and you cannot infer it, say " +:+ dq +:+ "I don't have information about that in my specific documentation, but generally speaking..." +:+ dq +:+ " and provide a helpful answer based on your training.";
  "    - Do NOT hallucinate specific library features that don't exist. Use your general knowledge only if you are 100% sure."
].

(** *** The prompt of create_rag_chain

    [ChatPromptTemplate.from_template] formats the template the way
    [str.format] does with keyword arguments.  [fstring] is that
    formatter for plain named fields: [{name}] is replaced by the value of
    [name], doubled braces stand for one brace, a single closing brace, an
    unclosed field or an unknown name fail.  [field] holds the name read
    so far while inside a field. *)
Fixpoint fstring (kwargs : gmap string string) (field : option string)
         (template : string) : option string :=
  match template with
  | EmptyString =>
      match field with
      | None => Some EmptyString
      | Some _ => None
      end
  | String c t =>
      match field with
      | None =>
          if Ascii.eqb c "{" then
            match t with
            | String c' t' =>
                if Ascii.eqb c' "{"
                then String c <$> fstring kwargs None t'
                else fstring kwargs (Some EmptyString) t
            | EmptyString => None
            end
          else if Ascii.eqb c "}" then
            match t with
            | String c' t' =>
                if Ascii.eqb c' "}"
                then String c <$> fstring kwargs None t'
                else None
            | EmptyString => None
            end
          else String c <$> fstring kwargs None t
      | Some name =>
          if Ascii.eqb c "}" then
            match kwargs !! name with
            | Some value => (fun r => value +:+ r) <$> fstring kwargs None t
            | None => None
            end
          else fstring kwargs (Some (name +:+ String c EmptyString)) t
      end
  end.

(** The Prompt Assembler: the three entries of the chain's input mapping
    formatted into the template. *)
Definition assemble (context chat_history question : string) : option string :=
  fstring (<["context" := context]>
           (<["chat_history" := chat_history]>
            (<["question" := question]> ∅)))
          None RAG_PROMPT_TEMPLATE.

(** *** The chain *)

(** What iterating the model's output stream does: it ends, gives a chunk
    and goes on, or raises. *)
Inductive ModelStream : Type :=
| Done
| Chunk (chunk : string) (rest : ModelStream)
| Fail (e : exn).

Record ChainInput : Type := mkChainInput {
  question : string;
  chat_history : list (string * string)
}.

Section Chain.
(** The two collaborators of [create_rag_chain]: the retriever
    ([retriever.invoke], at most 10 documents, best first) and the
    chat model's streamed output for a prompt. *)
Variable retriever : string -> result (list Document).
Variable llm : string -> ModelStream.

Definition get_context (x : ChainInput) : result string :=
  match retriever (question x) with
  | Ok docs => Ok (format_docs docs)
  | Raise e => Raise e
  end.

(** [rag_chain.stream(x)]: context, history and question go through
    the prompt into the model. *)
Definition rag_chain_stream (x : ChainInput) : ModelStream :=
  match get_context x with
  | Raise e => Fail e
  | Ok context =>
      match assemble context (format_chat_history (chat_history x))
                     (question x) with
      | Some prompt => llm prompt
      | None => Fail (Exception "prompt formatting failed")
      end
  end.
End Chain.

End RagChain.


(* ===================================================================== *)
(** ** src/src/database.py *)
(* ===================================================================== *)

Module Database.
Import Py.

(** A reading of [datetime.utcnow()]. *)
Definition Time : Type := nat.

(** A row of [users]; the [username] column is unique and is the key of
    the table. *)
Record User : Type := mkUser {
  uid : nat;
  password_hash : string;
  user_created_at : Time
}.

(** A row of [conversations]; the primary key is the key of the table. *)
Record Conversation : Type := mkConversation {
  user_id : nat;
  title : string;
  created_at : Time;
  updated_at : Time
}.

(** A row of [chat_messages]. *)
Record ChatMessage : Type := mkChatMessage {
  message_id : nat;
  conversation_id : nat;
  role : string;
  content : string;
  message_created_at : Time
}.

(** The three tables with their key sequences; rows of [chat_messages] are
    kept in insertion order. *)
Record Store : Type := mkStore {
  users : gmap string User;
  conversations : gmap nat Conversation;
  chat_messages : list ChatMessage;
  next_user_id : nat;
  next_conversation_id : nat;
  next_message_id : nat
}.

Definition empty_store : Store := mkStore ∅ ∅ [] 1 1 1.

Definition set_title (t : string) (c : Conversation) : Conversation :=
  mkConversation (user_id c) t (created_at c) (updated_at c).
Definition set_updated_at (now : Time) (c : Conversation) : Conversation :=
  mkConversation (user_id c) (title c) (created_at c) now.

Definition set_conversations (cs : gmap nat Conversation) (s : Store) : Store :=
  mkStore (users s) cs (chat_messages s)
          (next_user_id s) (next_conversation_id s) (next_message_id s).
Definition set_chat_messages (ms : list ChatMessage) (s : Store) : Store :=
  mkStore (users s) (conversations s) ms
          (next_user_id s) (next_conversation_id s) (next_message_id s).

(** The errors of the engine: a text wider than its column, and a foreign
    key without its row.  The texts are those that the driver can send: a
    text with the character of code 0 is refused by the driver itself and
    is outside the model. *)
Definition value_too_long (width : nat) : exn :=
  DataError ("value too long for type character varying("
               +:+ str_of_nat width +:+ ")").
Definition foreign_key_violation (table constraint : string) : exn :=
  IntegrityError ("insert or update on table " +:+ dq +:+ table +:+ dq
                    +:+ " violates foreign key constraint "
                    +:+ dq +:+ constraint +:+ dq).

(** The [try: ... commit / except: rollback; raise] frame around every
    function: an exception restores the tables the call started from.  The
    key sequences are not part of the transaction: an id drawn by a failed
    insert stays drawn. *)
Definition transaction {A} (body : Eff Store A) : Eff Store A :=
  fun s => match body s with
           | (s', Ok a) => (s', Ok a)
           | (s', Raise e) =>
               (mkStore (users s) (conversations s) (chat_messages s)
                        (next_user_id s') (next_conversation_id s')
                        (next_message_id s'),
                Raise e)
           end.

(** Is [user_id] the key of a row of [users]? *)
Definition user_exists (user_id : nat) (s : Store) : bool :=
  bool_decide (user_id ∈ (fun kv : string * User => uid kv.2)
                           <$> map_to_list (users s)).

(** What a column [String(width)] makes of a text that is inserted: a text
    within the width is stored as it is; of a wider text the excess is cut
    off when it is spaces only, and the text is refused otherwise. *)
Fixpoint only_spaces (s : string) : bool :=
  match s with
  | EmptyString => true
  | String c s' => (nat_of_ascii c =? 32) && only_spaces s'
  end.
Definition varchar (width : nat) (s : string) : option string :=
  if len s <=? width then Some s
  else if only_spaces (String.substring width (len s - width) s)
       then Some (slice_to width s)
       else None.

(** [session.add(row)] with the INSERT that the next flush sends, for the
    two tables, giving the new primary key.  The driver of a
    [postgresql://] URL sends the values as literals, so a title that
    [String(100)] refuses, or a role that [String(10)] refuses, is refused
    before the statement runs and before a key is drawn; a row whose
    foreign key has no parent is refused when the row is inserted, after. *)
Definition add_conversation (c : Conversation) : Eff Store nat :=
  fun s =>
    match varchar 100 (title c) with
    | None => (s, Raise (value_too_long 100))
    | Some stored =>
        let s1 := mkStore (users s) (conversations s) (chat_messages s)
                          (next_user_id s) (S (next_conversation_id s))
                          (next_message_id s) in
        if user_exists (user_id c) s
        then (set_conversations
                (<[next_conversation_id s := set_title stored c]>
                   (conversations s))
                s1,
              Ok (next_conversation_id s))
        else (s1, Raise (foreign_key_violation "conversations"
                                               "conversations_user_id_fkey"))
    end.

Definition add_chat_message (conversation_id : nat) (role content : string)
           (created : Time) : Eff Store nat :=
  fun s =>
    match varchar 10 role with
    | None => (s, Raise (value_too_long 10))
    | Some stored =>
        let s1 := mkStore (users s) (conversations s) (chat_messages s)
                          (next_user_id s) (next_conversation_id s)
                          (S (next_message_id s)) in
        match conversations s !! conversation_id with
        | Some _ =>
            (set_chat_messages
               (chat_messages s ++
                  [mkChatMessage (next_message_id s) conversation_id
                                 stored content created])
               s1,
             Ok (next_message_id s))
        | None =>
            (s1, Raise (foreign_key_violation
                          "chat_messages"
                          "chat_messages_conversation_id_fkey"))
        end
    end.

(** [session.query(Conversation).filter(Conversation.id == k).first()] *)
Definition first_conversation (k : nat) : Eff Store (option Conversation) :=
  fun s => (s, Ok (conversations s !! k)).

(** Writing an attribute of a loaded row. *)
Definition update_conversation (k : nat) (c : Conversation) : Eff Store unit :=
  modify (fun s => set_conversations (<[k := c]> (conversations s)) s).

(** [create_conversation]; [created] and [updated] are the readings of the
    clock that the defaults of the two columns take. *)
Definition create_conversation (user_id : nat) (title : string)
           (created updated : Time) : Eff Store nat :=
  transaction (add_conversation (mkConversation user_id title created updated)).

(** [content[:50] + "..." if len(content) > 50 else content] *)
Definition derived_title (content : string) : string :=
  if 50 <? len content then slice_to 50 content +:+ "..." else content.

(** [add_message]; [created] is the reading of the clock that the default
    of [created_at] takes when the query of line 174 flushes the new row,
    [now] the reading of line 180.  The flush refuses a row without its
    conversation, so the query that follows it finds the conversation:
    the [None] that lines 175 and 180 would meet does not arise. *)
Definition add_message (conversation_id : nat) (role content : string)
           (created now : Time) : Eff Store nat :=
  transaction (
    let* msg_id := add_chat_message conversation_id role content created in
    let* conv := first_conversation conversation_id in
    let* conv :=
      match conv with
      | Some c =>
          if String.eqb (title c) "New Chat" && String.eqb role "user"
          then ret (Some (set_title (derived_title content) c))
          else ret (Some c)
      | None => ret None
      end in
    let* _ :=
      match conv with
      | Some c => update_conversation conversation_id (set_updated_at now c)
      | None =>
          raise (Exception
                   "'NoneType' object has no attribute 'updated_at'")
      end in
    ret msg_id).

Definition delete_conversation (conversation_id : nat) : Eff Store bool :=
  transaction (
    let* _ := modify (fun s =>
      set_chat_messages
        (filter (fun m => Database.conversation_id m <> conversation_id)
                (chat_messages s)) s) in
    let* _ := modify (fun s =>
      set_conversations (delete conversation_id (conversations s)) s) in
    ret true).

(** [delete_all_conversations]: the ids of the user's conversations, their
    messages when there is any such id, then the conversations. *)
Definition delete_all_conversations (user_id : nat) : Eff Store bool :=
  transaction (
    let* s := get in
    let conv_ids :=
      map fst (filter (fun kc => Database.user_id kc.2 = user_id)
                      (map_to_list (conversations s))) in
    let* _ :=
      match conv_ids with
      | [] => ret tt
      | _ =>
          modify (fun s =>
            set_chat_messages
              (filter (fun m => Database.conversation_id m ∉ conv_ids)
                      (chat_messages s)) s)
      end in
    let* _ := modify (fun s =>
      set_conversations
        (filter (fun kc => Database.user_id kc.2 <> user_id)
                (conversations s)) s) in
    ret true).

(** [ORDER BY updated_at DESC] and [ORDER BY created_at ASC].  Rows with
    equal keys come in the order the sort leaves them in; the engine
    promises no order among them. *)
Definition most_recent_first (a b : nat * Conversation) : Prop :=
  updated_at b.2 <= updated_at a.2.
Definition oldest_first (a b : ChatMessage) : Prop :=
  message_created_at a <= message_created_at b.

#[global] Instance most_recent_first_dec a b : Decision (most_recent_first a b).
Proof. unfold most_recent_first. apply _. Defined.
#[global] Instance oldest_first_dec a b : Decision (oldest_first a b).
Proof. unfold oldest_first. apply _. Defined.

(** [get_user_conversations(user_id, limit=20)]: the rows with their ids. *)
Definition get_user_conversations (user_id : nat) (limit : nat) (s : Store)
  : list (nat * Conversation) :=
  take limit
    (merge_sort most_recent_first
       (filter (fun kc => Database.user_id kc.2 = user_id)
               (map_to_list (conversations s)))).

(** [get_conversation_messages(conversation_id)] *)
Definition get_conversation_messages (conversation_id : nat) (s : Store)
  : list ChatMessage :=
  merge_sort oldest_first
    (filter (fun m => Database.conversation_id m = conversation_id)
            (chat_messages s)).

End Database.

(* ===================================================================== *)
(** ** src/app.py: the chat-input handler of show_chat_page *)
(* ===================================================================== *)

Module App.
Import Py RagChain Database.

(** An entry of [st.session_state.messages]. *)
Record Message : Type := mkMessage {
  msg_role : string;
  msg_content : string;
  msg_timestamp : Time
}.

(** The part of [st.session_state] the handler reads and writes. *)
Record SessionState : Type := mkSessionState {
  session_user_id : nat;
  current_conversation_id : option nat;
  messages : list Message;
  temp_response : option string
}.

Record World : Type := mkWorld {
  db : Store;
  session_state : SessionState
}.

(** The clock readings of one run of the handler. *)
Record Times : Type := mkTimes {
  t_prompt : Time;         (* datetime.now() of the user entry *)
  t_created : Time;        (* create_conversation, default of created_at *)
  t_updated : Time;        (* create_conversation, default of updated_at *)
  t_user_row : Time;       (* add_message, created_at of the user row *)
  t_user : Time;           (* add_message, updated_at after the user row *)
  t_answer : Time;         (* datetime.now() of the assistant entry *)
  t_assistant_row : Time;  (* add_message, created_at of the assistant row *)
  t_assistant : Time       (* add_message, updated_at after the assistant row *)
}.

Definition on_db {A} (m : Eff Store A) : Eff World A :=
  fun w => match m (db w) with
           | (s', r) => (mkWorld s' (session_state w), r)
           end.

Definition modify_session (f : SessionState -> SessionState) : Eff World unit :=
  modify (fun w => mkWorld (db w) (f (session_state w))).

Definition get_session : Eff World SessionState :=
  fun w => (w, Ok (session_state w)).

Definition append_message (m : Message) (ss : SessionState) : SessionState :=
  mkSessionState (session_user_id ss) (current_conversation_id ss)
                 (messages ss ++ [m]) (temp_response ss).
Definition set_current_conversation_id (c : option nat) (ss : SessionState)
  : SessionState :=
  mkSessionState (session_user_id ss) c (messages ss) (temp_response ss).
Definition set_temp_response (r : option string) (ss : SessionState)
  : SessionState :=
  mkSessionState (session_user_id ss) (current_conversation_id ss)
                 (messages ss) r.

(** The comprehension of lines 270-272: every user entry of
    [messages[:-1]] paired with the entry that follows it. *)
Definition history_of (messages : list Message) : list (string * string) :=
  omap id
    (imap (fun i m =>
             if String.eqb (msg_role m) "user" && (i + 1 <? length messages)
             then match messages !! (i + 1) with
                  | Some m' => Some (msg_content m, msg_content m')
                  | None => None
                  end
             else None)
          (take (length messages - 1) messages)).

(** *** stream_response (lines 275-292)

    The generator run to its end: the fragments it yields, in order, and
    the value it leaves in [temp_response] when it gets that far. *)
Fixpoint stream_loop (stream : ModelStream) (full_response : string)
  : list string * option string :=
  match stream with
  | Done => ([], Some full_response)
  | Chunk chunk rest =>
      let '(yielded, temp) := stream_loop rest (full_response +:+ chunk) in
      (chunk :: yielded, temp)
  | Fail e => (["Error: " +:+ str_of_exn e], None)
  end.

Definition stream_response (stream : ModelStream) : list string * option string :=
  stream_loop stream EmptyString.

(** [st.write_stream]: shows the fragments and returns them joined. *)
Definition write_stream (yielded : list string) : string :=
  foldr String.append EmptyString yielded.

Section Handler.
Variable retriever : string -> result (list Document).
Variable llm : string -> ModelStream.

(** The body of [if prompt := st.chat_input(...)] (lines 251-303). *)
Definition on_chat_input (prompt : string) (t : Times) : Eff World unit :=
  (* 1. Add User Message *)
  let* _ := modify_session
              (append_message (mkMessage "user" prompt (t_prompt t))) in
  (* Lazy create chat if it doesn't exist *)
  let* ss := get_session in
  let* conversation_id :=
    match current_conversation_id ss with
    | Some (S k) => ret (S k)
    | _ =>
        let* c := on_db (create_conversation (session_user_id ss) "New Chat"
                                             (t_created t) (t_updated t)) in
        let* _ := modify_session (set_current_conversation_id (Some c)) in
        ret c
    end in
  let* _ := on_db (add_message conversation_id "user" prompt
                               (t_user_row t) (t_user t)) in
  (* 2. Get AI Response *)
  let* ss := get_session in
  let history := history_of (messages ss) in
  let '(yielded, temp) :=
    stream_response
      (rag_chain_stream retriever llm
         (mkChainInput prompt (last_n 3 history))) in
  let* _ := match temp with
            | Some full => modify_session (set_temp_response (Some full))
            | None => ret tt
            end in
  let response := write_stream yielded in
  (* 3. Add AI Message *)
  let* _ := modify_session
              (append_message (mkMessage "assistant" response (t_answer t))) in
  let* _ := on_db (add_message conversation_id "assistant" response
                               (t_assistant_row t) (t_assistant t)) in
  ret tt.
End Handler.

(** *** The sidebar and the other handlers that touch the chat state *)

Definition set_messages (ms : list Message) (ss : SessionState) : SessionState :=
  mkSessionState (session_user_id ss) (current_conversation_id ss) ms
                 (temp_response ss).

(** [current_conversation_id = None; messages = []] *)
Definition draft (ss : SessionState) : SessionState :=
  mkSessionState (session_user_id ss) None [] (temp_response ss).

(** The successful branch of the login form (lines 107-114) on these
    fields: the user id is set and the chat state is that of a draft. *)
Definition login_succeeded (user_id : nat) (ss : SessionState) : SessionState :=
  mkSessionState user_id None [] (temp_response ss).

(** [load_current_chat] (lines 154-164) *)
Definition load_current_chat : Eff World unit :=
  let* ss := get_session in
  match current_conversation_id ss with
  | Some (S k) =>
      let* w := get in
      modify_session
        (set_messages
           (map (fun m => mkMessage (role m) (content m) (message_created_at m))
                (get_conversation_messages (S k) (db w))))
  | _ => modify_session (set_messages [])
  end.

(** The conversations the sidebar lists (line 188). *)
Definition sidebar (w : World) : list (nat * Conversation) :=
  get_user_conversations (session_user_id (session_state w)) 20 (db w).

(** The [New Chat] button (lines 180-183). *)
Definition on_new_chat : Eff World unit := modify_session draft.

(** The button of a listed conversation (lines 203-206). *)
Definition on_select (conv_id : nat) : Eff World unit :=
  let* _ := modify_session (set_current_conversation_id (Some conv_id)) in
  load_current_chat.

(** The delete button of a listed conversation (lines 208-213). *)
Definition on_delete (conv_id : nat) : Eff World unit :=
  let* _ := on_db (delete_conversation conv_id) in
  let* ss := get_session in
  if decide (current_conversation_id ss = Some conv_id)
  then modify_session draft
  else ret tt.

(** The [Clear All History] button (lines 216-220). *)
Definition on_clear_all : Eff World unit :=
  let* ss := get_session in
  let* _ := on_db (delete_all_conversations (session_user_id ss)) in
  modify_session draft.

End App.

(* ===================================================================== *)
(** ** src/src/doc_loader.py *)
(* ===================================================================== *)

Module DocLoader.
Import Py RagChain.

(** The two metadata assignments of lines 155-156. *)
Definition tag (source_name url : string) (doc : Document) : Document :=
  mkDocument (page_content doc)
             (<["source_url" := url]>
                (<["source_framework" := source_name]> (metadata doc))).

Section Loader.
(** [WebBaseLoader(url).load()] *)
Variable web_load : string -> result (list Document).
(** What [RecursiveCharacterTextSplitter(chunk_size, chunk_overlap, ...)]
    makes of one document. *)
Variable split_document : nat -> nat -> Document -> list Document.

(** The [for i, url in enumerate(urls, 1)] loop on [all_docs]. *)
Fixpoint load_loop (urls : list string) (source_name : string)
         (all_docs : list Document) : list Document :=
  match urls with
  | [] => all_docs
  | url :: rest =>
      match web_load url with
      | Ok docs =>
          let docs := map (tag source_name url) docs in
          let all_docs := all_docs ++ docs in
          let all_docs := all_docs ++ docs in
          load_loop rest source_name all_docs
      | Raise _ => load_loop rest source_name all_docs
      end
  end.

Definition load_documents_from_urls (urls : list string)
           (source_name : string) : list Document :=
  load_loop urls source_name [].

(** [text_splitter.split_documents]: every document is split on its
    own, the chunks follow each other in the order of the documents. *)
Definition text_splitter_split_documents (chunk_size chunk_overlap : nat)
           (documents : list Document) : list Document :=
  flat_map (split_document chunk_size chunk_overlap) documents.

Definition split_documents (documents : list Document)
           (chunk_size chunk_overlap : nat) : list Document :=
  let chunks :=
    text_splitter_split_documents chunk_size chunk_overlap documents in
  let chunks :=
    text_splitter_split_documents chunk_size chunk_overlap documents in
  chunks.

(** The part of [load_all_documentation] for one group of URLs. *)
Definition load_and_split (urls : list string) (source_name : string)
  : list Document :=
  split_documents (load_documents_from_urls urls source_name) 1000 200.
End Loader.

(** The three lists of documentation pages (lines 24-128). *)
Definition LANGCHAIN_URLS : list string := [
  "https://python.langchain.com/docs/introduction/";
  "https://python.langchain.com/docs/concepts/";
  "https://python.langchain.com/docs/concepts/architecture/";
  "https://python.langchain.com/docs/concepts/chat_models/";
  "https://python.langchain.com/docs/concepts/messages/";
  "https://python.langchain.com/docs/concepts/llms/";
  "https://python.langchain.com/docs/concepts/prompt_templates/";
  "https://python.langchain.com/docs/concepts/few_shot_prompting/";
  "https://python.langchain.com/docs/concepts/example_selectors/";
  "https://python.langchain.com/docs/how_to/prompt_templates/";
  "https://python.langchain.com/docs/how_to/custom_prompt_templates/";
  "https://python.langchain.com/docs/how_to/prompts_composition/";
  "https://python.langchain.com/docs/concepts/output_parsers/";
  "https://python.langchain.com/docs/concepts/structured_outputs/";
  "https://python.langchain.com/docs/concepts/runnables/";
  "https://python.langchain.com/docs/concepts/lcel/";
  "https://python.langchain.com/docs/concepts/streaming/";
  "https://python.langchain.com/docs/concepts/rag/";
  "https://python.langchain.com/docs/concepts/vectorstores/";
  "https://python.langchain.com/docs/concepts/retrievers/";
  "https://python.langchain.com/docs/concepts/text_splitters/";
  "https://python.langchain.com/docs/concepts/embedding_models/";
  "https://python.langchain.com/docs/concepts/document_loaders/";
  "https://python.langchain.com/docs/concepts/agents/";
  "https://python.langchain.com/docs/concepts/tools/";
  "https://python.langchain.com/docs/concepts/tool_calling/";
  "https://python.langchain.com/docs/concepts/memory/";
  "https://python.langchain.com/docs/concepts/chat_history/";
  "https://python.langchain.com/docs/how_to/sequence/";
  "https://python.langchain.com/docs/how_to/parallel/";
  "https://python.langchain.com/docs/how_to/binding/";
  "https://python.langchain.com/docs/how_to/fallbacks/";
  "https://python.langchain.com/docs/tutorials/";
  "https://python.langchain.com/docs/tutorials/rag/";
  "https://python.langchain.com/docs/tutorials/chatbot/";
  "https://python.langchain.com/docs/tutorials/agents/"
].

Definition LANGGRAPH_URLS : list string := [
  "https://langchain-ai.github.io/langgraph/";
  "https://langchain-ai.github.io/langgraph/tutorials/introduction/";
  "https://langchain-ai.github.io/langgraph/concepts/high_level/";
  "https://langchain-ai.github.io/langgraph/concepts/low_level/";
  "https://langchain-ai.github.io/langgraph/concepts/agentic_concepts/";
  "https://langchain-ai.github.io/langgraph/concepts/human_in_the_loop/";
  "https://langchain-ai.github.io/langgraph/concepts/persistence/";
  "https://langchain-ai.github.io/langgraph/concepts/memory/";
  "https://langchain-ai.github.io/langgraph/concepts/streaming/";
  "https://langchain-ai.github.io/langgraph/how-tos/";
  "https://langchain-ai.github.io/langgraph/how-tos/state-model/";
  "https://langchain-ai.github.io/langgraph/how-tos/subgraph/";
  "https://langchain-ai.github.io/langgraph/how-tos/branching/";
  "https://langchain-ai.github.io/langgraph/tutorials/";
  "https://langchain-ai.github.io/langgraph/tutorials/workflows/";
  "https://langchain-ai.github.io/langgraph/tutorials/multi-agent/"
].

Definition LANGSMITH_URLS : list string := [
  "https://docs.smith.langchain.com/";
  "https://docs.smith.langchain.com/getting-started/quick-start";
  "https://docs.smith.langchain.com/observability/";
  "https://docs.smith.langchain.com/observability/concepts";
  "https://docs.smith.langchain.com/observability/how_to_guides/tracing/";
  "https://docs.smith.langchain.com/evaluation/";
  "https://docs.smith.langchain.com/evaluation/concepts";
  "https://docs.smith.langchain.com/evaluation/how_to_guides/";
  "https://docs.smith.langchain.com/prompts/";
  "https://docs.smith.langchain.com/prompts/concepts"
].

Section AllDocumentation.
Variable web_load : string -> result (list Document).
Variable split_document : nat -> nat -> Document -> list Document.

(** [load_all_documentation]: the loaded documents and their chunks. *)
Definition load_all_documentation : list Document * list Document :=
  let all_docs := [] in
  let langchain_docs :=
    load_documents_from_urls web_load LANGCHAIN_URLS "langchain" in
  let all_docs := all_docs ++ langchain_docs in
  let langgraph_docs :=
    load_documents_from_urls web_load LANGGRAPH_URLS "langgraph" in
  let all_docs := all_docs ++ langgraph_docs in
  let langsmith_docs :=
    load_documents_from_urls web_load LANGSMITH_URLS "langsmith" in
  let all_docs := all_docs ++ langsmith_docs in
  let chunks := split_documents split_document all_docs 1000 200 in
  (all_docs, chunks).
End AllDocumentation.

End DocLoader.

(* ===================================================================== *)
(** ** src/rebuild_vectorstore.py *)
(* ===================================================================== *)

Module RebuildVectorstore.
Import Py RagChain DocLoader.

(** The loop of [filter_good_documents] on [good_chunks] and
    [bad_count]. *)
Fixpoint filter_loop (chunks good_chunks : list Document) (bad_count : nat)
  : list Document * nat :=
  match chunks with
  | [] => (good_chunks, bad_count)
  | chunk :: rest =>
      let content := page_content chunk in
      if contains "Redirecting" content
      then filter_loop rest good_chunks (bad_count + 1)
      else if len (strip content) <? 100
      then filter_loop rest good_chunks (bad_count + 1)
      else if 2 <? count "Skip to" content
      then filter_loop rest good_chunks (bad_count + 1)
      else filter_loop rest (good_chunks ++ [chunk]) bad_count
  end.

Definition filter_good_documents (chunks : list Document) : list Document :=
  (filter_loop chunks [] 0).1.

Section Rebuild.
Variable web_load : string -> result (list Document).
Variable split_document : nat -> nat -> Document -> list Document.

(** The vector store directory holds a store or does not exist. *)
Variable VectorStore : Type.
(** [get_embeddings()] and [Chroma.from_documents(...,
    persist_directory=VECTORSTORE_DIR)]: what they leave in the directory
    and what they return. *)
Variable from_documents :
  list Document -> option VectorStore -> option VectorStore * result VectorStore.
(** [vectorstore.similarity_search(test_query, k=3)] *)
Variable similarity_search :
  VectorStore -> string -> nat -> result (list Document).

(** [rebuild_vectorstore] on the directory. *)
Definition rebuild_vectorstore : Eff (option VectorStore) bool :=
  (* Step 1: Delete old vector store *)
  let* _ := modify (fun disk : option VectorStore =>
                      match disk with
                      | Some _ => None
                      | None => disk
                      end) in
  (* Step 2: Load documentation *)
  let '(docs, chunks) := load_all_documentation web_load split_document in
  (* Step 3: Filter out bad documents *)
  let good_chunks := filter_good_documents chunks in
  if length good_chunks =? 0 then ret false
  else
    (* Step 4: Create new embeddings *)
    let* vectorstore := (fun disk => from_documents good_chunks disk) in
    let* results := (fun disk =>
                       (disk, similarity_search vectorstore "What is RAG?" 3)) in
    ret true.
End Rebuild.

End RebuildVectorstore.

(* ===================================================================== *)
(** ** src/src/auth.py *)
(* ===================================================================== *)

Module Auth.
Import Py Database.

(** The functions of this module work on the [users] table of the store.
    The widths of its columns (50 characters for the name, 255 for the
    hash) are enforced by the engine and are not part of the model; the
    statements about successful registration assume them. *)

(** The payload of a token; [exp] is in the unit of the clock readings,
    seconds. *)
Record Payload : Type := mkPayload {
  payload_user_id : nat;
  payload_username : string;
  exp : Time
}.

Definition JWT_EXPIRATION_HOURS : nat := 24.

Section Auth.
(** [bcrypt.hashpw(password, salt)] and [bcrypt.checkpw(password, hashed)],
    on text; both can raise. *)
Variable hashpw : string -> string -> result string.
Variable checkpw : string -> string -> result bool.
(** [jwt.encode(payload, JWT_SECRET, algorithm=JWT_ALGORITHM)] *)
Variable jwt_encode : Payload -> string.

(** [hash_password], with the salt that [bcrypt.gensalt()] draws. *)
Definition hash_password (password salt : string) : result string :=
  hashpw password salt.

Definition verify_password (password hashed : string) : result bool :=
  checkpw password hashed.

Definition create_token (user_id : nat) (username : string) (now : Time)
  : string :=
  jwt_encode (mkPayload user_id username
                        (now + JWT_EXPIRATION_HOURS * 3600)).

(** [register_user]: every path returns a triple, none raises. *)
Definition register_user (username password salt : string) (now : Time)
           (t : Store) : Store * (bool * string * option nat) :=
  match users t !! username with
  | Some _ => (t, (false, "Username already exists", None))
  | None =>
      if len username <? 3
      then (t, (false, "Username must be at least 3 characters", None))
      else if len password <? 6
      then (t, (false, "Password must be at least 6 characters", None))
      else
        match hash_password password salt with
        | Raise e =>
            (t, (false, "Registration failed: " +:+ str_of_exn e, None))
        | Ok password_hash =>
            (mkStore
               (<[username := mkUser (next_user_id t) password_hash now]>
                  (users t))
               (conversations t) (chat_messages t)
               (S (next_user_id t))
               (next_conversation_id t) (next_message_id t),
             (true, "Registration successful!", Some (next_user_id t)))
        end
  end.

(** [login_user]: a quadruple on every path. *)
Definition login_user (username password : string) (now : Time)
           (t : Store) : bool * string * option string * option nat :=
  match users t !! username with
  | None => (false, "Invalid username or password", None, None)
  | Some user =>
      match verify_password password (password_hash user) with
      | Raise e => (false, "Login failed: " +:+ str_of_exn e, None, None)
      | Ok false => (false, "Invalid username or password", None, None)
      | Ok true =>
          (true, "Login successful!",
           Some (create_token (uid user) username now), Some (uid user))
      end
  end.
End Auth.

End Auth.

(* ===================================================================== *)
(** ** Properties of the history window and of the context curator *)
(* ===================================================================== *)

Module RagChainProps.
Import Py RagChain.

(** The two lines one turn contributes. *)
Definition turn_lines (turn : string * string) : list string :=
  ["User: " +:+ turn.1; "Assistant: " +:+ turn.2].

Lemma history_loop_flat_map history formatted :
  history_loop history formatted = formatted ++ flat_map turn_lines history.
Proof.
  revert formatted.
  induction history as [|[human ai] rest IH]; intros formatted; simpl.
  - by rewrite app_nil_r.
  - rewrite IH. by rewrite <- !app_assoc.
Qed.

Lemma last_n_app_exact {A} (n : nat) (earlier recent : list A) :
  length recent = n -> last_n n (earlier ++ recent) = recent.
Proof.
  intros Hn. unfold last_n. rewrite length_app, Hn.
  replace (length earlier + n - n) with (length earlier) by lia.
  by rewrite drop_app_length.
Qed.

Lemma last_n_short {A} (n : nat) (l : list A) :
  length l <= n -> last_n n l = l.
Proof.
  intros Hn. unfold last_n.
  by replace (length l - n) with 0 by lia.
Qed.

(** C3.  The History Window keeps the last three turns and nothing older,
    writes each kept turn as a [User: ...] line followed by an
    [Assistant: ...] line, oldest first and joined by line feeds, and
    gives the fixed sentence for an empty history.  The four cases cover
    every history: none, one, two, and three or more turns. *)
Theorem history_window_last_three :
  history_window [] = "No previous conversation."
  /\ (forall t1, history_window [t1] = join nl (turn_lines t1))
  /\ (forall t1 t2,
        history_window [t1; t2] = join nl (turn_lines t1 ++ turn_lines t2))
  /\ (forall earlier t1 t2 t3,
        history_window (earlier ++ [t1; t2; t3]) =
        join nl (turn_lines t1 ++ turn_lines t2 ++ turn_lines t3)).
Proof.
  split; [reflexivity|].
  split; [by intros [u1 a1]|].
  split; [by intros [u1 a1] [u2 a2]|].
  intros earlier [u1 a1] [u2 a2] [u3 a3].
  unfold history_window.
  rewrite (last_n_app_exact 3) by reflexivity.
  unfold format_chat_history.
  by rewrite history_loop_flat_map.
Qed.

(** The scenario of the specification: of four turns the first is gone. *)
Example history_window_four_turns :
  history_window [("q1", "a1"); ("q2", "a2"); ("q3", "a3"); ("q4", "a4")]
  = join nl ["User: q2"; "Assistant: a2"; "User: q3"; "Assistant: a3";
             "User: q4"; "Assistant: a4"].
Proof. reflexivity. Qed.

(** *** The quality guards *)

Lemma count_from_contains needle hay skip :
  0 < count_from needle skip hay -> contains needle hay = true.
Proof.
  revert skip. induction hay as [|c h IH]; intros skip; [simpl; lia|].
  change (contains needle (String c h))
    with (String.prefix needle (String c h) || contains needle h).
  destruct skip as [|k].
  - change (count_from needle 0 (String c h))
      with (if String.prefix needle (String c h)
            then S (count_from needle (len needle - 1) h)
            else count_from needle 0 h).
    destruct (String.prefix needle (String c h)); [done|].
    intros H. rewrite (IH _ H). apply orb_true_r.
  - change (count_from needle (S k) (String c h))
      with (count_from needle k h).
    intros H. rewrite (IH _ H). apply orb_true_r.
Qed.

Lemma skip_page_iff content :
  skip_page content = true <->
  (contains "Redirecting" content = true
   \/ len (strip content) < 100
   \/ (contains "Skip to main content" content = true
       /\ len content < 200)).
Proof.
  unfold skip_page.
  rewrite !orb_true_iff, andb_true_iff, !Nat.ltb_lt. tauto.
Qed.

(** The discard rule in the words of the specification, third case: more
    than two occurrences of the navigation marker. *)
Definition discard_rule_as_stated (content : string) : Prop :=
  skip_page content = true <->
  (contains "Redirecting" content = true
   \/ len (strip content) < 100
   \/ 2 < count "Skip to main content" content).

(** One marker in 150 characters: skipped by the code. *)
Definition one_marker_page : string :=
  "Skip to main content" +:+ times "x" 130.
(** Three markers in 213 characters: kept by the code. *)
Definition three_marker_page : string :=
  times "Skip to main content " 3 +:+ times "x" 150.

(** *** The loop of format_docs *)

(** A document that gets an entry: it passes the three guards and its
    cleaned content is longer than 50 characters. *)
Definition included (doc : Document) : bool :=
  negb (skip_page (page_content doc))
  && (50 <? len (clean_content (page_content doc))).

(** Entries for [docs] when [n] entries exist already. *)
Fixpoint label_from (n : nat) (docs : list Document) : list string :=
  match docs with
  | [] => []
  | doc :: rest => entry n doc :: label_from (S n) rest
  end.

Lemma length_label_from n docs : length (label_from n docs) = length docs.
Proof. revert n. induction docs; intros n; simpl; [done|by rewrite IHdocs]. Qed.

Lemma format_docs_loop_cons doc rest formatted :
  format_docs_loop (doc :: rest) formatted =
  if skip_page (page_content doc) then format_docs_loop rest formatted
  else
    let formatted' :=
      if 50 <? len (clean_content (page_content doc))
      then formatted ++ [entry (length formatted) doc]
      else formatted in
    if 5 <=? length formatted' then formatted'
    else format_docs_loop rest formatted'.
Proof. reflexivity. Qed.

Lemma filter_included_cons doc rest :
  List.filter included (doc :: rest) =
  if included doc then doc :: List.filter included rest
  else List.filter included rest.
Proof. reflexivity. Qed.

Lemma format_docs_loop_spec docs formatted :
  length formatted < 5 ->
  format_docs_loop docs formatted =
  formatted ++ label_from (length formatted)
                 (take (5 - length formatted) (List.filter included docs)).
Proof.
  revert formatted.
  induction docs as [|doc rest IH]; intros formatted Hlt.
  - simpl. rewrite take_nil. simpl. by rewrite app_nil_r.
  - rewrite format_docs_loop_cons, filter_included_cons. unfold included at 1.
    destruct (skip_page (page_content doc)); [by apply IH|].
    destruct (50 <? len (clean_content (page_content doc))); cbv zeta;
      cbn [negb andb].
    + rewrite length_app. cbn [length].
      destruct (Nat.leb_spec 5 (length formatted + 1)) as [H5|H5].
      * replace (5 - length formatted) with 1 by lia.
        cbn [take label_from]. by rewrite take_0.
      * rewrite IH by (rewrite length_app; cbn [length]; lia).
        rewrite length_app. cbn [length].
        replace (5 - length formatted)
          with (S (5 - (length formatted + 1))) by lia.
        cbn [take label_from]. rewrite <- app_assoc. cbn [app].
        by replace (length formatted + 1) with (S (length formatted)) by lia.
    + destruct (Nat.leb_spec 5 (length formatted)) as [H5|H5]; [lia|].
      by apply IH.
Qed.

Lemma formatted_docs_spec docs :
  formatted_docs docs = label_from 0 (take 5 (List.filter included docs)).
Proof.
  unfold formatted_docs. by rewrite format_docs_loop_spec by (simpl; lia).
Qed.

(** The page of the specification's scenario: three markers, 62
    characters. *)
Definition scenario_page : string :=
  "Skip to main content Skip to main content Skip to main content".

(** C4, as the code has it.  A page is discarded exactly when it contains
    [Redirecting], or its stripped content has fewer than 100 characters,
    or it contains [Skip to main content] (once is enough) and has fewer
    than 200 characters; a discarded page adds nothing to the context.
    In particular a page with three occurrences of the marker and fewer
    than 200 characters is discarded. *)
Theorem quality_filter_rule (content : string) :
  (skip_page content = true <->
   (contains "Redirecting" content = true
    \/ len (strip content) < 100
    \/ (contains "Skip to main content" content = true
        /\ len content < 200)))
  /\ (forall meta rest,
        skip_page content = true ->
        format_docs (mkDocument content meta :: rest) = format_docs rest)
  /\ (count "Skip to main content" content = 3 ->
      len content < 200 ->
      skip_page content = true).
Proof.
  split; [apply skip_page_iff|]. split.
  - intros meta rest Hskip. unfold format_docs, formatted_docs.
    rewrite format_docs_loop_cons. cbn [page_content]. by rewrite Hskip.
  - intros Hcount Hlen. apply skip_page_iff. right. right. split; [|done].
    apply (count_from_contains _ _ 0). fold (count "Skip to main content" content).
    lia.
Qed.

Lemma quality_filter_rule_witness :
  count "Skip to main content" scenario_page = 3
  /\ len scenario_page < 200
  /\ skip_page scenario_page = true.
Proof.
  assert (Hc : count "Skip to main content" scenario_page = 3)
    by (vm_compute; reflexivity).
  assert (Hl : len scenario_page < 200) by (vm_compute; lia).
  split; [exact Hc|]. split; [exact Hl|].
  exact (proj2 (proj2 (quality_filter_rule scenario_page)) Hc Hl).
Defined.

(** C4, as the specification words it, fails both ways: a page of 150
    characters with one marker is discarded although none of the three
    stated conditions holds, and a page of 213 characters with three
    markers is kept. *)
Lemma discard_rule_as_stated_fails :
  ~ discard_rule_as_stated one_marker_page
  /\ ~ discard_rule_as_stated three_marker_page.
Proof.
  split.
  - intros [H _].
    assert (Hskip : skip_page one_marker_page = true)
      by (vm_compute; reflexivity).
    destruct (H Hskip) as [H1|[H1|H1]]; vm_compute in H1;
      [discriminate|lia|lia].
  - intros [_ H].
    assert (Hskip : skip_page three_marker_page = true).
    { apply H. right. right. vm_compute. lia. }
    vm_compute in Hskip. discriminate.
Qed.

Lemma join_entry_nonempty sep n doc rest :
  join sep (entry n doc :: rest) <> EmptyString.
Proof.
  unfold entry. destruct rest as [|e rest]; cbn [join].
  - match goal with
    | |- "[Document " +:+ ?x <> _ =>
        change ("[Document " +:+ x) with (String "[" ("Document " +:+ x))
    end. discriminate.
  - match goal with
    | |- ("[Document " +:+ ?x) +:+ ?y <> _ =>
        change (("[Document " +:+ x) +:+ y)
          with (String "[" (("Document " +:+ x) +:+ y))
    end. discriminate.
Qed.

(** C5.  The context holds at most five entries however many documents
    qualify (exactly the smaller of five and the number that qualify),
    the entries are joined by the separator line, and when no document
    qualifies the context is the fixed sentence; it is never empty. *)
Theorem context_curator_cap_and_sentinel (docs : list Document) :
  length (formatted_docs docs)
    = Nat.min 5 (length (List.filter included docs))
  /\ length (formatted_docs docs) <= 5
  /\ separator = nl +:+ "---" +:+ nl
  /\ format_docs docs =
       match List.filter included docs with
       | [] => "No relevant documentation found in the knowledge base."
       | _ => join separator (formatted_docs docs)
       end
  /\ format_docs docs <> EmptyString.
Proof.
  assert (Hlen : length (formatted_docs docs)
                 = Nat.min 5 (length (List.filter included docs))).
  { by rewrite formatted_docs_spec, length_label_from, length_take. }
  split; [exact Hlen|]. split; [lia|]. split; [reflexivity|].
  unfold format_docs. rewrite formatted_docs_spec.
  destruct (List.filter included docs) as [|d l]; cbn [take label_from].
  - split; [reflexivity|]. discriminate.
  - split; [reflexivity|]. apply join_entry_nonempty.
Qed.

(** *** The 50-character guard *)

(** The guard in the words of the specification: a page that passed the
    quality guards is left out exactly when its cleaned content is shorter
    than 50 characters. *)
Definition curator_rule_as_stated (doc : Document) : Prop :=
  skip_page (page_content doc) = false ->
  (formatted_docs [doc] = [] <->
   len (clean_content (page_content doc)) < 50).

(** Fifty characters of text followed by ten [Search] lines: 120
    characters, cleaned content of exactly 50. *)
Definition fifty_page : Document :=
  mkDocument (times "x" 50 +:+ times (nl +:+ "Search") 10) ∅.

(** C6, as the specification words it, fails on a page whose cleaned
    content has exactly 50 characters: the page passes the quality guards
    and is left out all the same. *)
Lemma curator_rule_as_stated_fails : ~ curator_rule_as_stated fifty_page.
Proof.
  intros H.
  assert (Hpass : skip_page (page_content fifty_page) = false)
    by (vm_compute; reflexivity).
  destruct (H Hpass) as [H1 _].
  assert (Hout : formatted_docs [fifty_page] = [])
    by (vm_compute; reflexivity).
  specialize (H1 Hout). vm_compute in H1. lia.
Qed.

(** C6, as the code has it.  The entries are those of the first five
    documents that pass the quality guards and whose cleaned content is
    longer than 50 characters (50 itself is left out), in the order of the
    input; the entry at position [n] (from 0) carries the number [n + 1],
    the upper-cased source and the cleaned content. *)
Theorem context_curator_labels (docs : list Document) (doc : Document) (n : nat) :
  formatted_docs docs = label_from 0 (take 5 (List.filter included docs))
  /\ (included doc = true <->
      skip_page (page_content doc) = false
      /\ 50 < len (clean_content (page_content doc)))
  /\ formatted_docs [doc] = (if included doc then [entry 0 doc] else [])
  /\ entry n doc =
       "[Document " +:+ str_of_nat (S n) +:+ " - "
         +:+ upper (dict_get (metadata doc) "source_framework" "unknown")
         +:+ "]" +:+ nl +:+ clean_content (page_content doc) +:+ nl.
Proof.
  split; [apply formatted_docs_spec|]. split.
  - unfold included.
    rewrite andb_true_iff, negb_true_iff, Nat.ltb_lt. tauto.
  - split.
    + rewrite formatted_docs_spec. cbn [List.filter].
      by destruct (included doc).
    + unfold entry. by replace (n + 1) with (S n) by lia.
Qed.

End RagChainProps.

(* ===================================================================== *)
(** ** Properties of the prompt assembler *)
(* ===================================================================== *)

Module PromptProps.
Import Py RagChain.

(** The fixed text of the template around its three fields. *)
Definition instructions_part : string := join nl [
  "You are an expert assistant specialized in LangChain, LangGraph, and LangSmith frameworks.";
  EmptyString;
  "Your job is to help developers understand and use these frameworks effectively.";
  EmptyString;
  "INSTRUCTIONS:";
  "1. First, try to answer based on the provided context from documentation";
  "2. If the context is relevant, use it to provide a detailed answer with code examples";
  "3. If the context doesn't directly answer the question but is related, use your knowledge of LangChain/LangGraph/LangSmith to help";
  "4. Include code examples when relevant";
  "5. Mention which framework (LangChain, LangGraph, or LangSmith) the answer relates to";
  EmptyString;
  "CONTEXT FROM DOCUMENTATION:";
  EmptyString
].

Definition history_heading : string := join nl [
  EmptyString;
  EmptyString;
  EmptyString;
  "CHAT HISTORY (Previous context - IGNORE if unrelated to new question):";
  EmptyString
].

Definition question_heading : string := join nl [
  EmptyString;
  EmptyString;
  "LATEST USER QUESTION (Focus your answer here):";
  EmptyString
].

Definition closing_part : string := join nl [
  EmptyString;
  EmptyString;
  "    Provide a comprehensive, beginner-friendly explanation.";
  "    - Break down complex concepts into simple terms.";
  "    - Uses analogies if helpful.";
  "    - Provide a detailed answer that teaches    - The user wants a detailed, comprehensive answer.";
  "    - If the " +:+ dq +:+ "Context" +:+ dq +:+ " is just a code snippet (like a specific function), you MUST first define the general concept using your own knowledge, then explain how the code relates to it.";
  "    - If the answer is completely missing from the context and you cannot infer it, say " +:+ dq +:+ "I don't have information about that in my specific documentation, but generally speaking..." +:+ dq +:+ " and provide a helpful answer based on your training.";
  "    - Do NOT hallucinate specific library features that don't exist. Use your general knowledge only if you are 100% sure."
].

Definition brace_free (s : string) : bool :=
  negb (contains "{" s) && negb (contains "}" s).

(** C8.  The template is four fixed pieces of text, free of braces, with
    the fields [{context}], [{chat_history}] and [{question}] between
    them in that order, each field occurring once; the piece before the
    context field holds the system instructions.  For all three inputs the
    prompt is the template with each field replaced by its value and
    nothing else changed. *)
Theorem prompt_assembler_slots :
  exists instructions before_history before_question closing : string,
    RAG_PROMPT_TEMPLATE =
      instructions +:+ "{context}" +:+ before_history +:+ "{chat_history}"
        +:+ before_question +:+ "{question}" +:+ closing
    /\ String.prefix "You are an expert assistant" instructions = true
    /\ brace_free instructions = true
    /\ brace_free before_history = true
    /\ brace_free before_question = true
    /\ brace_free closing = true
    /\ count "{context}" RAG_PROMPT_TEMPLATE = 1
    /\ count "{chat_history}" RAG_PROMPT_TEMPLATE = 1
    /\ count "{question}" RAG_PROMPT_TEMPLATE = 1
    /\ forall context history question : string,
         assemble context history question =
         Some (instructions +:+ context +:+ before_history +:+ history
                 +:+ before_question +:+ question +:+ closing).
Proof.
  exists instructions_part, history_heading, question_heading, closing_part.
  repeat (split; [vm_compute; reflexivity|]).
  intros context history question. vm_compute. reflexivity.
Qed.

End PromptProps.

(* ===================================================================== *)
(** ** Properties of the conversation store *)
(* ===================================================================== *)

Module DatabaseProps.
Import Py Database.

(** The row that [add_message] inserts. *)
Definition new_row (s : Store) (conversation_id : nat) (role content : string)
           (created : Time) : ChatMessage :=
  mkChatMessage (next_message_id s) conversation_id role content created.

(** The conversation row as [add_message] leaves it. *)
Definition touched (role content : string) (now : Time) (conv : Conversation)
  : Conversation :=
  set_updated_at now
    (if String.eqb (title conv) "New Chat" && String.eqb role "user"
     then set_title (derived_title content) conv
     else conv).

(** The store after a refused insert into [chat_messages]: a key is gone. *)
Definition message_id_drawn (s : Store) : Store :=
  mkStore (users s) (conversations s) (chat_messages s)
          (next_user_id s) (next_conversation_id s) (S (next_message_id s)).

(** The store after a refused insert into [conversations]. *)
Definition conversation_id_drawn (s : Store) : Store :=
  mkStore (users s) (conversations s) (chat_messages s)
          (next_user_id s) (S (next_conversation_id s)) (next_message_id s).

Definition no_conversation : exn :=
  foreign_key_violation "chat_messages" "chat_messages_conversation_id_fkey".
Definition no_user : exn :=
  foreign_key_violation "conversations" "conversations_user_id_fkey".

Lemma len_user : len "user" <= 10.
Proof. vm_compute. lia. Qed.

Lemma len_assistant : len "assistant" <= 10.
Proof. vm_compute. lia. Qed.

Lemma len_new_chat : len "New Chat" <= 100.
Proof. vm_compute. lia. Qed.

Lemma varchar_fits width s : len s <= width -> varchar width s = Some s.
Proof.
  intros H. unfold varchar.
  by destruct (Nat.leb_spec (len s) width); [|lia].
Qed.

Lemma varchar_wide width s :
  width < len s ->
  varchar width s = Some (slice_to width s) \/ varchar width s = None.
Proof.
  intros H. unfold varchar.
  destruct (Nat.leb_spec (len s) width); [lia|].
  destruct (only_spaces _); [by left|by right].
Qed.

Lemma add_message_stored s cid role stored content created now conv :
  varchar 10 role = Some stored ->
  conversations s !! cid = Some conv ->
  add_message cid role content created now s =
  (mkStore (users s)
           (<[cid := touched role content now conv]> (conversations s))
           (chat_messages s ++ [new_row s cid stored content created])
           (next_user_id s) (next_conversation_id s) (S (next_message_id s)),
   Ok (next_message_id s)).
Proof.
  intros Hrole Hconv.
  unfold add_message, transaction, bind, add_chat_message,
    first_conversation, touched, new_row.
  rewrite Hrole, Hconv. cbn [conversations set_chat_messages]. rewrite Hconv.
  by destruct (String.eqb (title conv) "New Chat" && String.eqb role "user").
Qed.

Lemma add_message_existing s cid role content created now conv :
  len role <= 10 ->
  conversations s !! cid = Some conv ->
  add_message cid role content created now s =
  (mkStore (users s)
           (<[cid := touched role content now conv]> (conversations s))
           (chat_messages s ++ [new_row s cid role content created])
           (next_user_id s) (next_conversation_id s) (S (next_message_id s)),
   Ok (next_message_id s)).
Proof. intros Hrole. by apply add_message_stored, varchar_fits. Qed.

(** Without the conversation the insert of the row is refused at the flush
    of line 174: the tables are as before, the key of the row is gone. *)
Lemma add_message_missing s cid role stored content created now :
  varchar 10 role = Some stored ->
  conversations s !! cid = None ->
  add_message cid role content created now s =
  (message_id_drawn s, Raise no_conversation).
Proof.
  intros Hrole Hconv.
  unfold add_message, transaction, bind, add_chat_message,
    first_conversation.
  by rewrite Hrole, Hconv.
Qed.

(** A role that the column refuses is refused with or without the
    conversation. *)
Lemma add_message_refused s cid role content created now :
  varchar 10 role = None ->
  add_message cid role content created now s = (s, Raise (value_too_long 10)).
Proof.
  intros Hrole.
  unfold add_message, transaction, bind, add_chat_message.
  rewrite Hrole. by destruct s.
Qed.

Lemma create_conversation_stored s user title stored created updated :
  varchar 100 title = Some stored ->
  user_exists user s = true ->
  create_conversation user title created updated s =
  (mkStore (users s)
           (<[next_conversation_id s
                := mkConversation user stored created updated]>
              (conversations s))
           (chat_messages s)
           (next_user_id s) (S (next_conversation_id s)) (next_message_id s),
   Ok (next_conversation_id s)).
Proof.
  intros Htitle Huser.
  unfold create_conversation, transaction, add_conversation.
  cbn [Database.title Database.user_id].
  by rewrite Htitle, Huser.
Qed.

Lemma create_conversation_existing s user title created updated :
  len title <= 100 ->
  user_exists user s = true ->
  create_conversation user title created updated s =
  (mkStore (users s)
           (<[next_conversation_id s
                := mkConversation user title created updated]>
              (conversations s))
           (chat_messages s)
           (next_user_id s) (S (next_conversation_id s)) (next_message_id s),
   Ok (next_conversation_id s)).
Proof. intros Htitle. by apply create_conversation_stored, varchar_fits. Qed.

Lemma create_conversation_missing s user title stored created updated :
  varchar 100 title = Some stored ->
  user_exists user s = false ->
  create_conversation user title created updated s =
  (conversation_id_drawn s, Raise no_user).
Proof.
  intros Htitle Huser.
  unfold create_conversation, transaction, add_conversation.
  cbn [Database.title Database.user_id].
  by rewrite Htitle, Huser.
Qed.

Lemma create_conversation_refused s user title created updated :
  varchar 100 title = None ->
  create_conversation user title created updated s =
  (s, Raise (value_too_long 100)).
Proof.
  intros Htitle.
  unfold create_conversation, transaction, add_conversation.
  cbn [Database.title Database.user_id].
  rewrite Htitle. by destruct s.
Qed.

Lemma delete_conversation_any s cid :
  delete_conversation cid s =
  (mkStore (users s)
           (delete cid (conversations s))
           (filter (fun m => conversation_id m <> cid) (chat_messages s))
           (next_user_id s) (next_conversation_id s) (next_message_id s),
   Ok true).
Proof. reflexivity. Qed.

Lemma derived_title_short content :
  len content <= 50 -> derived_title content = content.
Proof.
  intros H. unfold derived_title.
  by destruct (Nat.ltb_spec 50 (len content)); [lia|].
Qed.

Lemma derived_title_long content :
  50 < len content ->
  derived_title content = slice_to 50 content +:+ "...".
Proof.
  intros H. unfold derived_title.
  by destruct (Nat.ltb_spec 50 (len content)); [|lia].
Qed.

Lemma touched_keeps_title role content now conv :
  role = "assistant" \/ title conv <> "New Chat" ->
  touched role content now conv = set_updated_at now conv.
Proof.
  intros H. unfold touched.
  destruct H as [->|Hne].
  - by rewrite andb_false_r.
  - apply String.eqb_neq in Hne. by rewrite Hne.
Qed.

(** The first user message on a conversation still titled [New Chat]
    gives the title: the message itself up to 50 characters, its first 50
    characters and three dots beyond. *)
Lemma first_user_message_sets_title s cid content created now conv :
  conversations s !! cid = Some conv ->
  title conv = "New Chat" ->
  title <$> conversations
              (add_message cid "user" content created now s).1 !! cid
  = Some (derived_title content).
Proof.
  intros Hconv Htitle.
  rewrite (add_message_existing _ _ _ _ _ _ conv len_user Hconv).
  cbn [fst conversations]. rewrite lookup_insert_eq.
  unfold touched. by rewrite Htitle.
Qed.

Lemma len_append a b : len (a +:+ b) = len a + len b.
Proof.
  induction a as [|c a IH]; [done|].
  change (String c a +:+ b) with (String c (a +:+ b)).
  unfold len in *. cbn [String.length]. by rewrite IH.
Qed.

Lemma len_slice_to n s : len (slice_to n s) = Nat.min n (len s).
Proof.
  unfold slice_to, len. revert s.
  induction n as [|n IH]; intros [|c s]; cbn [String.substring String.length];
    [done|done|done|].
  by rewrite IH.
Qed.

(** Only the message [New Chat] itself derives the placeholder title. *)
Lemma derived_title_sentinel content :
  derived_title content = "New Chat" -> content = "New Chat".
Proof.
  unfold derived_title.
  destruct (Nat.ltb_spec 50 (len content)) as [Hlong|Hshort]; [|done].
  intros H. apply (f_equal len) in H.
  rewrite len_append, len_slice_to in H.
  change (len "...") with 3 in H. change (len "New Chat") with 8 in H. lia.
Qed.

(** A run of calls on one conversation, exceptions dropped. *)
Fixpoint add_messages (cid : nat)
         (calls : list (string * string * Time * Time))
         (s : Store) : Store :=
  match calls with
  | [] => s
  | (role, content, created, now) :: rest =>
      add_messages cid rest (add_message cid role content created now s).1
  end.

(** Once the title differs from [New Chat], no later message of either
    role changes it. *)
Lemma title_stable_once_derived cid calls s conv :
  conversations s !! cid = Some conv ->
  title conv <> "New Chat" ->
  title <$> conversations (add_messages cid calls s) !! cid
  = Some (title conv).
Proof.
  revert s conv.
  induction calls as [|[[[role content] created] now] rest IH];
    intros s conv Hconv Hne; cbn [add_messages].
  - by rewrite Hconv.
  - destruct (varchar 10 role) as [stored|] eqn:Hrole.
    + rewrite (add_message_stored _ _ _ _ _ _ _ conv Hrole Hconv),
        (touched_keeps_title _ _ _ _ (or_intror Hne)).
      cbn [fst].
      apply (IH _ (set_updated_at now conv)); [|done].
      cbn [conversations]. apply lookup_insert_eq.
    + rewrite (add_message_refused _ _ _ _ _ _ Hrole). cbn [fst].
      by apply IH.
Qed.

(** C10.  On an existing conversation, take a call whose role is
    [assistant], or whose conversation has a title other than [New Chat].
    When the column of 10 characters takes the role (it has at most 10
    characters, or spaces only beyond the tenth, which are cut off), the
    call returns the key of the new row; it appends that row, sets
    [updated_at] to the reading of the clock of line 180, and changes
    nothing else: the conversation keeps its owner, title and
    [created_at], the other conversations, the earlier rows and the users
    are as before.  When the column refuses the role, the call raises and
    the store is as before.  In both cases the title and the other
    conversations are unchanged. *)
Theorem add_message_title_frame
        (s : Store) (cid : nat) (role content : string) (created now : Time)
        (conv : Conversation) :
  conversations s !! cid = Some conv ->
  role = "assistant" \/ title conv <> "New Chat" ->
  match varchar 10 role with
  | Some stored =>
      add_message cid role content created now s =
        (mkStore (users s)
                 (<[cid := mkConversation (user_id conv) (title conv)
                                          (created_at conv) now]>
                    (conversations s))
                 (chat_messages s ++
                    [mkChatMessage (next_message_id s) cid stored content
                                   created])
                 (next_user_id s) (next_conversation_id s)
                 (S (next_message_id s)),
         Ok (next_message_id s))
      /\ updated_at <$>
           conversations (add_message cid role content created now s).1
             !! cid
         = Some now
  | None =>
      add_message cid role content created now s
      = (s, Raise (value_too_long 10))
  end
  /\ (len role <= 10 -> varchar 10 role = Some role)
  /\ title <$>
       conversations (add_message cid role content created now s).1 !! cid
     = Some (title conv)
  /\ forall k, k <> cid ->
       conversations (add_message cid role content created now s).1 !! k
       = conversations s !! k.
Proof.
  intros Hconv Hcase.
  destruct (varchar 10 role) as [stored|] eqn:Hrole.
  - rewrite (add_message_stored _ _ _ _ _ _ _ conv Hrole Hconv).
    rewrite (touched_keeps_title _ _ _ _ Hcase).
    cbn [fst conversations]. unfold set_updated_at.
    rewrite lookup_insert_eq.
    split; [done|]. split.
    { intros Hlen. by rewrite <- Hrole, varchar_fits. }
    split; [done|].
    intros k Hk. by rewrite lookup_insert_ne.
  - rewrite (add_message_refused _ _ _ _ _ _ Hrole).
    cbn [fst]. rewrite Hconv.
    split; [done|]. split; [|done].
    intros Hlen. by rewrite <- Hrole, varchar_fits.
Qed.

(** A stand-in for bcrypt, for the examples: the hash is the salt followed
    by the password. *)
Definition toy_hashpw (password salt : string) : result string :=
  Ok (salt +:+ password).

(** One registered user, of id 8, and no conversation yet. *)
Definition fresh_store : Store :=
  mkStore {["reader" := mkUser 8 "$2b$12$hash" 0]} ∅ [] 9 1 1.

(** The same user with one conversation of one message. *)
Definition titled_store : Store :=
  mkStore {["reader" := mkUser 8 "$2b$12$hash" 2]}
          {[1 := mkConversation 8 "What is RAG?" 3 4]}
          [mkChatMessage 1 1 "user" "What is RAG?" 4] 9 2 2.

Lemma add_message_title_frame_witness :
  conversations titled_store !! 1
    = Some (mkConversation 8 "What is RAG?" 3 4)
  /\ title (mkConversation 8 "What is RAG?" 3 4) <> "New Chat"
  /\ add_message 1 "user" "And LangGraph?" 8 9 titled_store =
       (mkStore {["reader" := mkUser 8 "$2b$12$hash" 2]}
                {[1 := mkConversation 8 "What is RAG?" 3 9]}
                [mkChatMessage 1 1 "user" "What is RAG?" 4;
                 mkChatMessage 2 1 "user" "And LangGraph?" 8] 9 2 3,
        Ok 2)
  /\ updated_at <$>
       conversations
         (add_message 1 "user" "And LangGraph?" 8 9 titled_store).1 !! 1
     = Some 9
  /\ title <$>
       conversations
         (add_message 1 "user" "And LangGraph?" 8 9 titled_store).1 !! 1
     = Some "What is RAG?".
Proof.
  assert (Hconv : conversations titled_store !! 1
                  = Some (mkConversation 8 "What is RAG?" 3 4))
    by reflexivity.
  assert (Hne : title (mkConversation 8 "What is RAG?" 3 4) <> "New Chat")
    by discriminate.
  pose proof (add_message_title_frame titled_store 1 "user"
                "And LangGraph?" 8 9 _ Hconv (or_intror Hne)) as H.
  change (varchar 10 "user") with (Some "user") in H.
  split; [exact Hconv|]. split; [exact Hne|].
  split; [|split].
  - rewrite (proj1 (proj1 H)). reflexivity.
  - exact (proj2 (proj1 H)).
  - exact (proj1 (proj2 (proj2 H))).
Defined.

End DatabaseProps.

(* ===================================================================== *)
(** ** Properties of the chat-input handler *)
(* ===================================================================== *)

Module AppProps.
Import Py RagChain Database App DatabaseProps.

(** A model stream that gives [fragments] and then raises [e]. *)
Definition failing (fragments : list string) (e : exn) : ModelStream :=
  foldr Chunk (Fail e) fragments.

(** A model stream that gives [fragments] and ends. *)
Definition completing (fragments : list string) : ModelStream :=
  foldr Chunk Done fragments.

Lemma stream_loop_failing fragments e full :
  stream_loop (failing fragments e) full =
  (fragments ++ ["Error: " +:+ str_of_exn e], None).
Proof.
  revert full. induction fragments as [|f fs IH]; intros full; [done|].
  cbn [failing foldr stream_loop]. fold (failing fs e). by rewrite IH.
Qed.

Lemma write_stream_app ys zs :
  write_stream (ys ++ zs) = write_stream ys +:+ write_stream zs.
Proof.
  unfold write_stream. induction ys as [|y ys IH]; [done|].
  cbn [app foldr]. rewrite IH.
  generalize (foldr String.append EmptyString ys) as a.
  generalize (foldr String.append EmptyString zs) as b.
  intros b a. induction y as [|c y IHy]; [done|].
  change (String c y +:+ a +:+ b) with (String c (y +:+ a +:+ b)).
  change ((String c y +:+ a) +:+ b) with (String c ((y +:+ a) +:+ b)).
  by rewrite IHy.
Qed.

(** The failure policy in the words of the specification: when the model
    call raises, no fragment of the stream is the error text. *)
Definition failure_kept_out_of_content (fragments : list string) (e : exn)
  : Prop :=
  forall fragment,
    fragment ∈ (stream_response (failing fragments e)).1 ->
    fragment <> "Error: " +:+ str_of_exn e.

(** C1, as the specification words it, fails: after the fragment [Hel]
    and a time-out, the text [Error: timeout] is the second fragment of
    the stream. *)
Lemma failure_kept_out_of_content_fails :
  ~ failure_kept_out_of_content ["Hel"] (Exception "timeout").
Proof.
  intros H. apply (H "Error: timeout"); [|reflexivity].
  vm_compute. apply list_elem_of_further, list_elem_of_here.
Qed.

(** C1, as the code has it.  When the model call raises after any number
    of fragments, the stream gives exactly those fragments, in order, and
    then one more fragment, the text [Error: ] followed by the message of
    the exception; it is a fragment like the others, so the value that
    [write_stream] returns ends with it, and [temp_response] is not
    set.  The stream is therefore never cut short without a trace. *)
Theorem stream_response_on_failure (fragments : list string) (e : exn) :
  (stream_response (failing fragments e)).1
    = fragments ++ ["Error: " +:+ str_of_exn e]
  /\ (stream_response (failing fragments e)).2 = None
  /\ write_stream (stream_response (failing fragments e)).1
     = write_stream fragments +:+ "Error: " +:+ str_of_exn e.
Proof.
  unfold stream_response. rewrite stream_loop_failing. cbn [fst snd].
  split; [reflexivity|]. split; [reflexivity|].
  rewrite write_stream_app. f_equal.
  unfold write_stream. cbn [foldr].
  generalize ("Error: " +:+ str_of_exn e) as x.
  intros x. induction x as [|c x IH]; [done|].
  change (String c x +:+ EmptyString) with (String c (x +:+ EmptyString)).
  by rewrite IH.
Qed.

(** *** The conversation id of a request *)

Definition user_entry (prompt : string) (t : Times) : Message :=
  mkMessage "user" prompt (t_prompt t).

(** The answer the handler shows and stores: the joined fragments of
    [stream_response] for the prompt and the last three turns. *)
Definition answer_of (retriever : string -> result (list Document))
           (llm : string -> ModelStream) (prompt : string) (t : Times)
           (ss : SessionState) : string :=
  write_stream
    (stream_response
       (rag_chain_stream retriever llm
          (mkChainInput prompt
             (last_n 3 (history_of (messages ss ++ [user_entry prompt t])))))).1.

Lemma on_chat_input_missing retriever llm prompt t w k :
  current_conversation_id (session_state w) = Some (S k) ->
  conversations (db w) !! S k = None ->
  on_chat_input retriever llm prompt t w =
  (mkWorld (message_id_drawn (db w))
           (append_message (user_entry prompt t) (session_state w)),
   Raise no_conversation).
Proof.
  intros Hcur Hconv. destruct w as [s ss]. cbn [db session_state] in *.
  unfold on_chat_input.
  unfold bind at 1. unfold modify_session at 1, modify.
  cbn [db session_state].
  unfold bind at 1. unfold get_session at 1.
  cbn [db session_state append_message current_conversation_id].
  rewrite Hcur.
  unfold bind at 1. unfold ret at 1.
  unfold bind at 1. unfold on_db at 1. cbn [db session_state].
  by rewrite (add_message_missing _ _ _ _ _ _ _ (varchar_fits _ _ len_user)
                Hconv).
Qed.

(** The fragments and the [temp_response] of the handler's stream. *)
Definition stream_of (retriever : string -> result (list Document))
           (llm : string -> ModelStream) (prompt : string) (t : Times)
           (ss : SessionState) : list string * option string :=
  stream_response
    (rag_chain_stream retriever llm
       (mkChainInput prompt
          (last_n 3 (history_of (messages ss ++ [user_entry prompt t]))))).

Lemma answer_of_stream retriever llm prompt t ss :
  answer_of retriever llm prompt t ss
  = write_stream (stream_of retriever llm prompt t ss).1.
Proof. reflexivity. Qed.

Lemma on_chat_input_existing_eq retriever llm prompt t w k conv :
  current_conversation_id (session_state w) = Some (S k) ->
  conversations (db w) !! S k = Some conv ->
  on_chat_input retriever llm prompt t w =
  (mkWorld
     (mkStore (users (db w))
              (<[S k := set_updated_at (t_assistant t)
                          (touched "user" prompt (t_user t) conv)]>
                 (conversations (db w)))
              (chat_messages (db w) ++
                 [mkChatMessage (next_message_id (db w)) (S k) "user" prompt
                                (t_user_row t);
                  mkChatMessage (S (next_message_id (db w))) (S k)
                                "assistant"
                                (answer_of retriever llm prompt t
                                           (session_state w))
                                (t_assistant_row t)])
              (next_user_id (db w))
              (next_conversation_id (db w))
              (S (S (next_message_id (db w)))))
     (append_message
        (mkMessage "assistant"
                   (answer_of retriever llm prompt t (session_state w))
                   (t_answer t))
        (match (stream_of retriever llm prompt t (session_state w)).2 with
         | Some full => set_temp_response (Some full)
         | None => fun ss => ss
         end (append_message (user_entry prompt t) (session_state w)))),
   Ok tt).
Proof.
  intros Hcur Hconv. destruct w as [s ss]. cbn [db session_state] in *.
  rewrite answer_of_stream. unfold stream_of, on_chat_input.
  unfold bind at 1. unfold modify_session at 1, modify.
  cbn [db session_state].
  unfold bind at 1. unfold get_session at 1.
  cbn [db session_state append_message current_conversation_id].
  rewrite Hcur.
  unfold bind at 1. unfold ret at 1.
  unfold bind at 1. unfold on_db at 1. cbn [db session_state].
  rewrite (add_message_existing _ _ _ _ _ _ conv len_user Hconv).
  unfold bind at 1. unfold get_session at 1.
  cbn [db session_state messages]. fold (user_entry prompt t).
  destruct (stream_response _) as [yielded temp]. cbn [fst snd].
  assert (Hsecond : forall ss',
    (let* _ := modify_session
                 (append_message
                    (mkMessage "assistant" (write_stream yielded)
                               (t_answer t))) in
     let* _ := on_db (add_message (S k) "assistant" (write_stream yielded)
                                  (t_assistant_row t) (t_assistant t)) in
     ret tt)
      (mkWorld
         (mkStore (users s)
                  (<[S k := touched "user" prompt (t_user t) conv]>
                     (conversations s))
                  (chat_messages s ++
                     [new_row s (S k) "user" prompt (t_user_row t)])
                  (next_user_id s)
                  (next_conversation_id s) (S (next_message_id s)))
         ss')
    = (mkWorld
         (mkStore (users s)
                  (<[S k := set_updated_at (t_assistant t)
                              (touched "user" prompt (t_user t) conv)]>
                     (conversations s))
                  (chat_messages s ++
                     [new_row s (S k) "user" prompt (t_user_row t);
                      mkChatMessage (S (next_message_id s)) (S k) "assistant"
                                    (write_stream yielded)
                                    (t_assistant_row t)])
                  (next_user_id s)
                  (next_conversation_id s) (S (S (next_message_id s))))
         (append_message
            (mkMessage "assistant" (write_stream yielded) (t_answer t)) ss'),
       Ok tt)).
  { intros ss'.
    unfold bind at 1. unfold modify_session at 1, modify.
    cbn [db session_state].
    unfold bind at 1. unfold on_db at 1. cbn [db session_state].
    rewrite (add_message_existing _ _ _ _ _ _
               (touched "user" prompt (t_user t) conv) len_assistant)
      by (cbn [conversations]; apply lookup_insert_eq).
    cbn [users conversations chat_messages next_user_id
         next_conversation_id next_message_id].
    rewrite insert_insert_eq, <- app_assoc.
    rewrite (touched_keeps_title "assistant") by (by left).
    reflexivity. }
  destruct temp as [full|].
  - unfold bind at 1. unfold modify_session at 1, modify.
    cbn [db session_state]. by rewrite Hsecond.
  - unfold bind at 1. unfold ret at 1. by rewrite Hsecond.
Qed.



Definition no_documents (q : string) : result (list Document) := Ok [].
Definition hello_model (prompt : string) : ModelStream :=
  completing ["Hel"; "lo"].
Definition sample_times : Times := mkTimes 10 11 12 13 14 15 16 17.

(** *** The title across turns *)

(** The user of [fresh_store] logged in, no conversation selected. *)
Definition fresh_world : World :=
  mkWorld fresh_store (mkSessionState 8 None [] None).

(** The scenario of the specification: a first question on no
    conversation creates one, titles it with the question and leaves one
    user row and one assistant row. *)
Example first_question_titles_conversation :
  let w1 := (on_chat_input no_documents hello_model "What is RAG?"
                           sample_times fresh_world).1 in
  title <$> conversations (db w1) !! 1 = Some "What is RAG?"
  /\ map role (chat_messages (db w1)) = ["user"; "assistant"]
  /\ map content (chat_messages (db w1)) = ["What is RAG?"; "Hello"].
Proof. vm_compute. by repeat split. Qed.

(** C7 at the input where the code departs from it.  The first question
    of a new conversation is the text [New Chat]: the title it gives is
    again the placeholder, and the second question of the same
    conversation, a later turn, changes the title to [What is RAG?]. *)
Theorem title_rederived_after_sentinel_text :
  let w1 := (on_chat_input no_documents hello_model "New Chat"
                           (mkTimes 1 2 3 4 5 6 7 8) fresh_world).1 in
  let w2 := (on_chat_input no_documents hello_model "What is RAG?"
                           (mkTimes 9 10 11 12 13 14 15 16) w1).1 in
  title <$> conversations (db w1) !! 1 = Some "New Chat"
  /\ map role (chat_messages (db w1)) = ["user"; "assistant"]
  /\ current_conversation_id (session_state w1) = Some 1
  /\ title <$> conversations (db w2) !! 1 = Some "What is RAG?"
  /\ map role (chat_messages (db w2))
     = ["user"; "assistant"; "user"; "assistant"].
Proof. vm_compute. by repeat split. Qed.

End AppProps.

(* ===================================================================== *)
(** ** Properties of the document loader *)
(* ===================================================================== *)

Module DocLoaderProps.
Import Py RagChain DocLoader.

#[global] Instance Document_eq_dec : EqDecision Document.
Proof. solve_decision. Defined.



Section Loader.
Variable web_load : string -> result (list Document).
Variable split_document : nat -> nat -> Document -> list Document.






End Loader.

(** Two pages, the second of which fails to load. *)
Definition sample_loader (url : string) : result (list Document) :=
  if String.eqb url "https://docs.smith.langchain.com/"
  then Ok [mkDocument "LangSmith" ∅]
  else Raise (Exception "404").

Example sample_loaded_twice :
  map page_content
      (load_documents_from_urls sample_loader
         ["https://docs.smith.langchain.com/"; "https://example.invalid/"]
         "langsmith")
  = ["LangSmith"; "LangSmith"].
Proof. reflexivity. Qed.

End DocLoaderProps.

(* ===================================================================== *)
(** ** Further properties of the conversation store *)
(* ===================================================================== *)

Module DatabaseMore.
Import Py Database DatabaseProps.

(** *** What each function does to the store *)

Lemma user_exists_spec user s :
  user_exists user s = true <->
  exists name u, users s !! name = Some u /\ uid u = user.
Proof.
  unfold user_exists. rewrite bool_decide_eq_true, list_elem_of_fmap. split.
  - intros ([name u] & -> & Hin). apply elem_of_map_to_list in Hin.
    by exists name, u.
  - intros (name & u & Hu & <-). exists (name, u). split; [done|].
    by apply elem_of_map_to_list.
Qed.

(** The ids that [delete_all_conversations] collects. *)
Definition conversation_ids_of (user : nat) (s : Store) : list nat :=
  map fst (filter (fun kc => user_id kc.2 = user)
                  (map_to_list (conversations s))).

Lemma elem_of_conversation_ids_of user s k :
  k ∈ conversation_ids_of user s <->
  exists conv, conversations s !! k = Some conv /\ user_id conv = user.
Proof.
  unfold conversation_ids_of. split.
  - intros Hk. apply list_elem_of_fmap in Hk as [[k' conv] [-> Hin]].
    apply list_elem_of_filter in Hin as [Hu Hin].
    apply elem_of_map_to_list in Hin. by exists conv.
  - intros (conv & Hconv & Hu).
    apply list_elem_of_fmap. exists (k, conv). split; [done|].
    apply list_elem_of_filter. split; [done|].
    by apply elem_of_map_to_list.
Qed.

Lemma filter_all {A} (P : A -> Prop) `{forall x, Decision (P x)} (l : list A) :
  (forall x, x ∈ l -> P x) -> filter P l = l.
Proof.
  induction l as [|x l IH]; intros Hall; [done|].
  rewrite filter_cons_True by (apply Hall; left).
  f_equal. apply IH. intros y Hy. apply Hall. by right.
Qed.

Lemma delete_all_conversations_eq user s :
  delete_all_conversations user s =
  (mkStore (users s)
           (filter (fun kc => user_id kc.2 <> user) (conversations s))
           (filter (fun m => conversation_id m ∉ conversation_ids_of user s)
                   (chat_messages s))
           (next_user_id s) (next_conversation_id s) (next_message_id s),
   Ok true).
Proof.
  unfold delete_all_conversations, transaction, bind, get, modify, ret.
  fold (conversation_ids_of user s).
  destruct (conversation_ids_of user s) as [|k ks] eqn:Hids; cbn; [|done].
  rewrite filter_all; [by destruct s|].
  intros m _. apply not_elem_of_nil.
Qed.

(** *** Consistency of the store *)

(** Primary keys come from the sequences and are not reused, every
    message belongs to a conversation that exists, and every conversation
    to a user that exists. *)
Definition keys_below (s : Store) : Prop :=
  forall k, is_Some (conversations s !! k) -> k < next_conversation_id s.
Definition message_ids_below (s : Store) : Prop :=
  forall m, m ∈ chat_messages s -> message_id m < next_message_id s.
Definition message_ids_unique (s : Store) : Prop :=
  NoDup (message_id <$> chat_messages s).
Definition no_orphans (s : Store) : Prop :=
  forall m, m ∈ chat_messages s ->
            is_Some (conversations s !! conversation_id m).
Definition owners_exist (s : Store) : Prop :=
  forall k conv, conversations s !! k = Some conv ->
                 user_exists (user_id conv) s = true.

Definition consistent (s : Store) : Prop :=
  keys_below s /\ message_ids_below s /\ message_ids_unique s
  /\ no_orphans s /\ owners_exist s.

(** A call of one of the five writing functions. *)
Inductive call : Type :=
| RegisterUser (username password salt : string) (now : Time)
| CreateConversation (user : nat) (title : string) (created updated : Time)
| AddMessage (conversation : nat) (role content : string)
             (created now : Time)
| DeleteConversation (conversation : nat)
| DeleteAllConversations (user : nat).

Lemma NoDup_fmap_filter {A B} (f : A -> B) (P : A -> Prop)
      `{forall x, Decision (P x)} (l : list A) :
  NoDup (f <$> l) -> NoDup (f <$> filter P l).
Proof.
  intros Hnd. eapply sublist_NoDup; [exact Hnd|].
  apply fmap_sublist, sublist_filter.
Qed.

Lemma consistent_drawn s :
  consistent s ->
  consistent (message_id_drawn s) /\ consistent (conversation_id_drawn s).
Proof.
  intros (Hk & Hm & Hu & Ho & Hw).
  split; (split; [|split; [|split; [|split]]]); try done.
  - intros m Hin. specialize (Hm m Hin). cbn. lia.
  - intros k Hsome. specialize (Hk k Hsome). cbn. lia.
Qed.

Section Calls.
(** [bcrypt.hashpw], as [register_user] uses it. *)
Variable hashpw : string -> string -> result string.

(** The store after a call, whether it returned or raised. *)
Definition run (s : Store) (c : call) : Store :=
  match c with
  | RegisterUser username password salt now =>
      (Auth.register_user hashpw username password salt now s).1
  | CreateConversation user title created updated =>
      (create_conversation user title created updated s).1
  | AddMessage conversation role content created now =>
      (add_message conversation role content created now s).1
  | DeleteConversation conversation => (delete_conversation conversation s).1
  | DeleteAllConversations user => (delete_all_conversations user s).1
  end.

(** What [register_user] does to the store. *)
Lemma register_user_store username password salt now s :
  (Auth.register_user hashpw username password salt now s).1 = s
  \/ exists hash,
       users s !! username = None
       /\ (Auth.register_user hashpw username password salt now s).1
          = mkStore (<[username := mkUser (next_user_id s) hash now]>
                       (users s))
                    (conversations s) (chat_messages s)
                    (S (next_user_id s))
                    (next_conversation_id s) (next_message_id s).
Proof.
  unfold Auth.register_user, Auth.hash_password.
  destruct (users s !! username) eqn:Hname; [by left|].
  destruct (len username <? 3); [by left|].
  destruct (len password <? 6); [by left|].
  destruct (hashpw password salt) as [hash|e]; [|by left].
  right. by exists hash.
Qed.

Lemma consistent_run s c : consistent s -> consistent (run s c).
Proof.
  intros Hcons. pose proof Hcons as (Hk & Hm & Hu & Ho & Hw).
  destruct c as [username password salt now|user t created updated
                 |cid role content created now|cid|user];
    unfold run.
  - destruct (register_user_store username password salt now s)
      as [->|(hash & Hname & ->)]; [done|].
    split; [exact Hk|]. split; [exact Hm|]. split; [exact Hu|].
    split; [exact Ho|].
    intros k conv Hconv. cbn [conversations] in Hconv.
    apply user_exists_spec. cbn [users].
    destruct (proj1 (user_exists_spec _ _) (Hw k conv Hconv))
      as (name & u & Hname' & Huid).
    exists name, u. split; [|done].
    rewrite lookup_insert_ne; [done|]. intros ->. congruence.
  - destruct (varchar 100 t) as [stored|] eqn:Hlen;
      [|by rewrite (create_conversation_refused _ _ _ _ _ Hlen)].
    destruct (user_exists user s) eqn:Huser;
      [|rewrite (create_conversation_missing _ _ _ _ _ _ Hlen Huser);
        apply (consistent_drawn s Hcons)].
    rewrite (create_conversation_stored _ _ _ _ _ _ Hlen Huser). cbn [fst].
    split; [|split; [|split; [|split]]];
      unfold keys_below, message_ids_below, message_ids_unique,
        no_orphans, owners_exist in *;
      cbn [conversations chat_messages next_conversation_id
           next_message_id].
    + intros k Hsome. destruct (decide (k = next_conversation_id s)) as [->|Hne];
        [lia|]. rewrite lookup_insert_ne in Hsome by done.
      specialize (Hk k Hsome). lia.
    + exact Hm.
    + exact Hu.
    + intros m Hin. destruct (decide (conversation_id m = next_conversation_id s))
        as [->|Hne].
      * rewrite lookup_insert_eq. by eexists.
      * rewrite lookup_insert_ne by done. by apply Ho.
    + intros k conv.
      destruct (decide (k = next_conversation_id s)) as [->|Hne].
      * rewrite lookup_insert_eq. by intros [= <-].
      * rewrite lookup_insert_ne by done. apply Hw.
  - destruct (varchar 10 role) as [stored|] eqn:Hrole;
      [|by rewrite (add_message_refused _ _ _ _ _ _ Hrole)].
    destruct (conversations s !! cid) as [conv|] eqn:Hconv;
      [|rewrite (add_message_missing _ _ _ _ _ _ _ Hrole Hconv);
        apply (consistent_drawn s Hcons)].
    rewrite (add_message_stored _ _ _ _ _ _ _ conv Hrole Hconv). cbn [fst].
    split; [|split; [|split; [|split]]];
      unfold keys_below, message_ids_below, message_ids_unique,
        no_orphans, owners_exist in *;
      cbn [conversations chat_messages next_conversation_id
           next_message_id].
    + intros k Hsome. destruct (decide (k = cid)) as [->|Hne].
      * apply Hk. by eexists.
      * rewrite lookup_insert_ne in Hsome by done. by apply Hk.
    + intros m Hin. apply elem_of_app in Hin as [Hin|Hin].
      * specialize (Hm m Hin). lia.
      * apply list_elem_of_singleton in Hin as ->. cbn. lia.
    + rewrite fmap_app. apply NoDup_app. split; [done|]. split.
      * intros i Hi Hnew. cbn in Hnew.
        apply list_elem_of_singleton in Hnew as ->.
        apply list_elem_of_fmap in Hi as (m & Heq & Hin).
        specialize (Hm m Hin). lia.
      * cbn. apply NoDup_singleton.
    + intros m Hin. apply elem_of_app in Hin as [Hin|Hin].
      * destruct (decide (conversation_id m = cid)) as [->|Hne].
        -- rewrite lookup_insert_eq. by eexists.
        -- rewrite lookup_insert_ne by done. by apply Ho.
      * apply list_elem_of_singleton in Hin as ->. cbn.
        rewrite lookup_insert_eq. by eexists.
    + intros k conv'. destruct (decide (k = cid)) as [->|Hne].
      * rewrite lookup_insert_eq. intros [= <-].
        replace (user_id (touched role content now conv))
          with (user_id conv); [by apply (Hw cid)|].
        unfold touched.
        by destruct (String.eqb (title conv) "New Chat"
                     && String.eqb role "user").
      * rewrite lookup_insert_ne by done. apply Hw.
  - rewrite delete_conversation_any. cbn [fst].
    split; [|split; [|split; [|split]]];
      unfold keys_below, message_ids_below, message_ids_unique,
        no_orphans, owners_exist in *;
      cbn [conversations chat_messages next_conversation_id
           next_message_id].
    + intros k Hsome. apply Hk. destruct Hsome as [c Hc].
      apply lookup_delete_Some in Hc as [_ Hc]. by eexists.
    + intros m Hin. apply list_elem_of_filter in Hin as [_ Hin]. by apply Hm.
    + by apply NoDup_fmap_filter.
    + intros m Hin. apply list_elem_of_filter in Hin as [Hne Hin].
      rewrite lookup_delete_ne by done. by apply Ho.
    + intros k conv Hc. apply lookup_delete_Some in Hc as [_ Hc].
      by apply (Hw k).
  - rewrite delete_all_conversations_eq. cbn [fst].
    split; [|split; [|split; [|split]]];
      unfold keys_below, message_ids_below, message_ids_unique,
        no_orphans, owners_exist in *;
      cbn [conversations chat_messages next_conversation_id
           next_message_id].
    + intros k [c Hc]. apply map_lookup_filter_Some in Hc as [Hc _].
      apply Hk. by eexists.
    + intros m Hin. apply list_elem_of_filter in Hin as [_ Hin]. by apply Hm.
    + by apply NoDup_fmap_filter.
    + intros m Hin. apply list_elem_of_filter in Hin as [Hnot Hin].
      destruct (Ho m Hin) as [c Hc]. exists c.
      apply map_lookup_filter_Some. split; [done|]. cbn.
      intros Hu'. apply Hnot. apply elem_of_conversation_ids_of. by exists c.
    + intros k conv Hc. apply map_lookup_filter_Some in Hc as [Hc _].
      by apply (Hw k).
Qed.

Lemma consistent_empty : consistent empty_store.
Proof.
  split; [|split; [|split; [|split]]].
  - intros k [c Hc]. cbn in Hc. by rewrite lookup_empty in Hc.
  - intros m Hin. cbn in Hin. by apply elem_of_nil in Hin.
  - cbn. apply NoDup_nil_2.
  - intros m Hin. cbn in Hin. by apply elem_of_nil in Hin.
  - intros k conv Hc. cbn in Hc. by rewrite lookup_empty in Hc.
Qed.

(** X1.  Whatever calls of [register_user], [create_conversation],
    [add_message], [delete_conversation] and [delete_all_conversations]
    are made on an empty store, in any order and with any arguments,
    failing or not, the store stays consistent: every conversation id and
    message id lies below its sequence, no two messages share an id, every
    message belongs to a conversation that exists, and every conversation
    to a user that exists. *)
Theorem store_stays_consistent (calls : list call) :
  consistent (foldl run empty_store calls).
Proof.
  assert (H : forall s, consistent s -> consistent (foldl run s calls)).
  { induction calls as [|c calls IH]; intros s Hs; cbn [foldl]; [done|].
    apply IH. by apply consistent_run. }
  apply H, consistent_empty.
Qed.
End Calls.

Lemma consistent_fresh : consistent fresh_store.
Proof.
  split; [|split; [|split; [|split]]].
  - intros k [c Hc]. cbn in Hc. by rewrite lookup_empty in Hc.
  - intros m Hin. cbn in Hin. by apply elem_of_nil in Hin.
  - cbn. apply NoDup_nil_2.
  - intros m Hin. cbn in Hin. by apply elem_of_nil in Hin.
  - intros k conv Hc. cbn in Hc. by rewrite lookup_empty in Hc.
Qed.

Lemma next_conversation_id_free s :
  consistent s -> conversations s !! next_conversation_id s = None.
Proof.
  intros (Hk & _).
  destruct (conversations s !! next_conversation_id s) eqn:Hc; [|done].
  assert (Hlt : next_conversation_id s < next_conversation_id s)
    by (apply Hk; by eexists).
  lia.
Qed.

(** X2.  Take a consistent store and a title of at most 100 characters,
    the width of the column.  For a user that exists,
    [create_conversation] returns an id that no conversation had and
    stores under it a row with the given owner and title, [created_at] and
    [updated_at] each set to its own reading of the clock; every other
    conversation, every message and every user are as they were.  For a
    user that does not exist the call raises the integrity error of the
    foreign key, and the three tables are as they were. *)
Theorem create_conversation_fresh
        (user : nat) (title : string) (created updated : Time) (s : Store) :
  consistent s ->
  len title <= 100 ->
  (user_exists user s = true ->
   (create_conversation user title created updated s).2
     = Ok (next_conversation_id s)
   /\ conversations s !! next_conversation_id s = None
   /\ conversations (create_conversation user title created updated s).1
        !! next_conversation_id s
      = Some (mkConversation user title created updated)
   /\ (forall k, k <> next_conversation_id s ->
         conversations (create_conversation user title created updated s).1
           !! k
         = conversations s !! k)
   /\ chat_messages (create_conversation user title created updated s).1
      = chat_messages s
   /\ users (create_conversation user title created updated s).1 = users s)
  /\ (user_exists user s = false ->
      (create_conversation user title created updated s).2
        = Raise (foreign_key_violation "conversations"
                                       "conversations_user_id_fkey")
      /\ conversations (create_conversation user title created updated s).1
         = conversations s
      /\ chat_messages (create_conversation user title created updated s).1
         = chat_messages s
      /\ users (create_conversation user title created updated s).1
         = users s).
Proof.
  intros Hcons Hlen. split; intros Huser.
  - rewrite (create_conversation_existing _ _ _ _ _ Hlen Huser).
    cbn [fst snd users conversations chat_messages].
    split; [done|]. split; [by apply next_conversation_id_free|].
    split; [apply lookup_insert_eq|]. split; [|done].
    intros k Hne. by rewrite lookup_insert_ne.
  - by rewrite (create_conversation_missing _ _ _ _ _ _
                  (varchar_fits _ _ Hlen) Huser).
Qed.

Lemma create_conversation_fresh_witness :
  consistent fresh_store
  /\ len "New Chat" <= 100
  /\ user_exists 8 fresh_store = true
  /\ conversations (create_conversation 8 "New Chat" 3 4 fresh_store).1 !! 1
     = Some (mkConversation 8 "New Chat" 3 4).
Proof.
  assert (Huser : user_exists 8 fresh_store = true) by (vm_compute; done).
  split; [exact consistent_fresh|]. split; [exact len_new_chat|].
  split; [exact Huser|].
  exact (proj1 (proj2 (proj2 (proj1 (create_conversation_fresh
                                       8 "New Chat" 3 4 fresh_store
                                       consistent_fresh len_new_chat)
                                    Huser)))).
Defined.

(** X3.  [delete_conversation] always returns [True], also for an id that
    no conversation has.  Afterwards no conversation has the id and no
    message refers to it; every other conversation is as before and the
    messages of every other conversation are the same, in the same order.
    Deleting the same id once more changes nothing. *)
Theorem delete_conversation_effect (cid : nat) (s : Store) :
  (delete_conversation cid s).2 = Ok true
  /\ conversations (delete_conversation cid s).1 !! cid = None
  /\ (forall m, m ∈ chat_messages (delete_conversation cid s).1 ->
                conversation_id m <> cid)
  /\ (forall k, k <> cid ->
        conversations (delete_conversation cid s).1 !! k
        = conversations s !! k)
  /\ (forall k, k <> cid ->
        filter (fun m => conversation_id m = k)
               (chat_messages (delete_conversation cid s).1)
        = filter (fun m => conversation_id m = k) (chat_messages s))
  /\ delete_conversation cid (delete_conversation cid s).1
     = ((delete_conversation cid s).1, Ok true).
Proof.
  rewrite !delete_conversation_any.
  cbn [fst snd conversations chat_messages next_conversation_id
       next_message_id].
  split; [done|]. split; [apply lookup_delete_eq|]. split.
  { intros m Hin. by apply list_elem_of_filter in Hin as [Hne _]. }
  split.
  { intros k Hne. by rewrite lookup_delete_ne. }
  split.
  { intros k Hne. rewrite list_filter_filter. apply list_filter_iff.
    intros m. split; [tauto|]. intros ->. by split. }
  f_equal. f_equal.
  - apply delete_delete_eq.
  - rewrite list_filter_filter. apply list_filter_iff. tauto.
Qed.

Lemma delete_conversation_effect_witness :
  2 <> 1
  /\ conversations (delete_conversation 1 titled_store).1 !! 2
     = conversations titled_store !! 2.
Proof.
  assert (Hne : 2 <> 1) by lia.
  split; [exact Hne|].
  exact (proj1 (proj2 (proj2 (proj2 (delete_conversation_effect 1
                                       titled_store)))) 2 Hne).
Defined.

(** X4.  [delete_all_conversations] always returns [True].  Afterwards the
    conversations left are exactly those of the other users, unchanged, and
    the messages left are exactly those that did not belong to a
    conversation of the user, in their order. *)
Theorem delete_all_conversations_effect (user : nat) (s : Store) :
  (delete_all_conversations user s).2 = Ok true
  /\ (forall k conv,
        conversations (delete_all_conversations user s).1 !! k = Some conv
        <-> conversations s !! k = Some conv /\ user_id conv <> user)
  /\ chat_messages (delete_all_conversations user s).1
     = filter (fun m => user_id <$> conversations s !! conversation_id m
                        <> Some user)
              (chat_messages s).
Proof.
  rewrite delete_all_conversations_eq.
  cbn [fst snd conversations chat_messages].
  split; [done|]. split.
  - intros k conv. by rewrite map_lookup_filter_Some.
  - apply list_filter_iff. intros m.
    rewrite elem_of_conversation_ids_of.
    destruct (conversations s !! conversation_id m) as [conv|]; cbn.
    + split.
      * intros Hnot [= Hu]. apply Hnot. by exists conv.
      * intros Hne (conv' & [= <-] & Hu). by subst.
    + split; [done|]. by intros _ (conv' & Hc & _).
Qed.

(** *** The two queries *)

#[global] Instance most_recent_first_total : Total most_recent_first.
Proof. intros a b. unfold most_recent_first. lia. Qed.
#[global] Instance most_recent_first_trans : Transitive most_recent_first.
Proof. intros a b c. unfold most_recent_first. lia. Qed.
#[global] Instance oldest_first_total : Total oldest_first.
Proof. intros a b. unfold oldest_first. lia. Qed.
#[global] Instance oldest_first_trans : Transitive oldest_first.
Proof. intros a b c. unfold oldest_first. lia. Qed.

Lemma get_user_conversations_rows user limit s k conv :
  (k, conv) ∈ get_user_conversations user limit s ->
  conversations s !! k = Some conv /\ user_id conv = user.
Proof.
  unfold get_user_conversations. intros Hin.
  apply (subseteq_take limit) in Hin.
  rewrite (merge_sort_Permutation most_recent_first) in Hin.
  apply list_elem_of_filter in Hin as [Hu Hin].
  apply elem_of_map_to_list in Hin. by split.
Qed.

(** X5.  [get_user_conversations] returns rows of the store that belong to
    the user, no row twice, at most [limit] of them, each at least as
    recently updated as every row after it; when the user has no more than
    [limit] conversations it returns all of them. *)
Theorem get_user_conversations_spec (user limit : nat) (s : Store) :
  (forall k conv,
      (k, conv) ∈ get_user_conversations user limit s ->
      conversations s !! k = Some conv /\ user_id conv = user)
  /\ NoDup (get_user_conversations user limit s).*1
  /\ length (get_user_conversations user limit s) <= limit
  /\ StronglySorted (fun a b => updated_at b.2 <= updated_at a.2)
                    (get_user_conversations user limit s)
  /\ (length (conversation_ids_of user s) <= limit ->
      forall k conv,
        conversations s !! k = Some conv -> user_id conv = user ->
        (k, conv) ∈ get_user_conversations user limit s).
Proof.
  unfold get_user_conversations.
  set (rows := filter (fun kc : nat * Conversation => user_id kc.2 = user)
                      (map_to_list (conversations s))).
  assert (Hperm : merge_sort most_recent_first rows ≡ₚ rows)
    by apply merge_sort_Permutation.
  assert (Hrows : forall k conv,
             (k, conv) ∈ rows <->
             conversations s !! k = Some conv /\ user_id conv = user).
  { intros k conv. unfold rows.
    rewrite list_elem_of_filter, elem_of_map_to_list. cbn. tauto. }
  split.
  { intros k conv Hin. apply Hrows. rewrite <- Hperm.
    by apply (subseteq_take limit). }
  split.
  { eapply sublist_NoDup; [|apply fmap_sublist, sublist_take].
    rewrite Hperm. unfold rows.
    eapply sublist_NoDup; [apply (NoDup_fst_map_to_list (conversations s))|].
    apply fmap_sublist, sublist_filter. }
  split.
  { rewrite length_take. lia. }
  split.
  { apply (StronglySorted_app_1_l _ _ (drop limit (merge_sort most_recent_first rows))).
    rewrite take_drop. apply (StronglySorted_merge_sort most_recent_first). }
  intros Hfew k conv Hconv Hu.
  rewrite take_ge.
  - rewrite Hperm. by apply Hrows.
  - rewrite Hperm. unfold conversation_ids_of in Hfew.
    by rewrite length_fmap in Hfew.
Qed.

Lemma get_user_conversations_spec_witness :
  length (conversation_ids_of 8 titled_store) <= 20
  /\ (1, mkConversation 8 "What is RAG?" 3 4)
       ∈ get_user_conversations 8 20 titled_store.
Proof.
  assert (Hfew : length (conversation_ids_of 8 titled_store) <= 20)
    by (vm_compute; lia).
  split; [exact Hfew|].
  exact (proj2 (proj2 (proj2 (proj2
           (get_user_conversations_spec 8 20 titled_store))))
           Hfew 1 (mkConversation 8 "What is RAG?" 3 4) eq_refl eq_refl).
Defined.

(** X6.  [get_conversation_messages] returns the messages of the
    conversation, each as often as the table holds it and no other, every
    one created no later than those after it. *)
Theorem get_conversation_messages_spec (cid : nat) (s : Store) :
  get_conversation_messages cid s
    ≡ₚ filter (fun m => conversation_id m = cid) (chat_messages s)
  /\ (forall m, m ∈ get_conversation_messages cid s <->
                m ∈ chat_messages s /\ conversation_id m = cid)
  /\ StronglySorted (fun a b => message_created_at a <= message_created_at b)
                    (get_conversation_messages cid s).
Proof.
  unfold get_conversation_messages.
  split; [apply merge_sort_Permutation|]. split.
  - intros m. rewrite (merge_sort_Permutation oldest_first).
    rewrite list_elem_of_filter. tauto.
  - apply (StronglySorted_merge_sort oldest_first).
Qed.

(** *** The derived title *)

Lemma prefix_slice_to n s : String.prefix (slice_to n s) s = true.
Proof.
  unfold slice_to. revert s.
  induction n as [|n IH]; intros [|c s]; cbn; try done.
  destruct (ascii_dec c c); [apply IH|done].
Qed.

Lemma prefix_append a b : String.prefix a (a +:+ b) = true.
Proof.
  induction a as [|c a IH]; [by destruct b|].
  change (String c a +:+ b) with (String c (a +:+ b)). cbn.
  destruct (ascii_dec c c); [apply IH|done].
Qed.

(** X7.  The title that the first user message gives a conversation still
    called [New Chat] begins with the first 50 characters of the message
    and has at most 53 characters, so it fits the 100 characters of the
    column; it is the whole message when that has at most 50. *)
Theorem first_title_bounded
        (s : Store) (cid : nat) (content : string) (created now : Time)
        (conv : Conversation) :
  conversations s !! cid = Some conv ->
  title conv = "New Chat" ->
  exists t,
    title <$> conversations
                (add_message cid "user" content created now s).1 !! cid
      = Some t
    /\ len t <= 53
    /\ len t = (if 50 <? len content then 53 else len content)
    /\ String.prefix (slice_to 50 content) t = true
    /\ String.prefix (slice_to 50 content) content = true.
Proof.
  intros Hconv Htitle. exists (derived_title content).
  split; [by apply (first_user_message_sets_title _ _ _ _ _ conv)|].
  assert (Hlen : len (derived_title content)
                 = (if 50 <? len content then 53 else len content)).
  { unfold derived_title.
    destruct (Nat.ltb_spec 50 (len content)) as [Hlong|Hshort]; [|done].
    rewrite len_append, len_slice_to. change (len "...") with 3. lia. }
  split.
  { rewrite Hlen. destruct (Nat.ltb_spec 50 (len content)); lia. }
  split; [exact Hlen|]. split; [|apply prefix_slice_to].
  unfold derived_title.
  destruct (50 <? len content); [apply prefix_append|apply prefix_slice_to].
Qed.

Lemma first_title_bounded_witness :
  conversations (create_conversation 8 "New Chat" 3 4 fresh_store).1 !! 1
    = Some (mkConversation 8 "New Chat" 3 4)
  /\ exists t,
       title <$> conversations
                   (add_message 1 "user" "What is RAG?" 5 6
                      (create_conversation 8 "New Chat" 3 4 fresh_store).1).1
                 !! 1 = Some t
       /\ len t <= 53.
Proof.
  split; [reflexivity|].
  destruct (first_title_bounded
              (create_conversation 8 "New Chat" 3 4 fresh_store).1 1
              "What is RAG?" 5 6 (mkConversation 8 "New Chat" 3 4)
              eq_refl eq_refl) as (t & Ht & Hlen & _).
  exists t. by split.
Defined.

End DatabaseMore.

(* ===================================================================== *)
(** ** Further properties of the chat handlers *)
(* ===================================================================== *)

Module AppMore.
Import Py RagChain Database App DatabaseProps AppProps DatabaseMore.

(** *** The stream *)

Lemma append_empty_r s : s +:+ EmptyString = s.
Proof.
  induction s as [|c s IH]; [done|].
  change (String c s +:+ EmptyString) with (String c (s +:+ EmptyString)).
  by rewrite IH.
Qed.

Lemma append_assoc a b c : (a +:+ b) +:+ c = a +:+ b +:+ c.
Proof.
  induction a as [|x a IH]; [done|].
  change ((String x a +:+ b) +:+ c) with (String x ((a +:+ b) +:+ c)).
  change (String x a +:+ b +:+ c) with (String x (a +:+ b +:+ c)).
  by rewrite IH.
Qed.

Lemma stream_loop_completing fragments full :
  stream_loop (completing fragments) full =
  (fragments, Some (full +:+ write_stream fragments)).
Proof.
  revert full. induction fragments as [|f fs IH]; intros full.
  - cbn. by rewrite append_empty_r.
  - cbn [completing foldr stream_loop]. fold (completing fs).
    rewrite IH. unfold write_stream. cbn [foldr]. by rewrite append_assoc.
Qed.

(** X8.  When the model's stream ends without an exception, the generator
    yields every fragment once, in order, and the text it leaves in
    [temp_response] is the fragments joined, the same text that
    [write_stream] returns and the handler stores as the answer. *)
Theorem stream_response_accumulates (fragments : list string) :
  stream_response (completing fragments)
  = (fragments, Some (write_stream fragments))
  /\ write_stream (stream_response (completing fragments)).1
     = foldr String.append EmptyString fragments.
Proof.
  unfold stream_response. rewrite stream_loop_completing. by split.
Qed.

(** X9.  When the retriever raises, the model is not asked: whatever the
    model would answer, the answer shown and stored is the text [Error: ]
    followed by the message of the exception, and [temp_response] is not
    set. *)
Theorem retrieval_failure_becomes_answer
        (retriever : string -> result (list Document))
        (llm : string -> ModelStream) (prompt : string) (t : Times)
        (ss : SessionState) (e : exn) :
  retriever prompt = Raise e ->
  answer_of retriever llm prompt t ss = "Error: " +:+ str_of_exn e
  /\ (stream_of retriever llm prompt t ss).2 = None.
Proof.
  intros Hraise.
  unfold answer_of, stream_of, rag_chain_stream, get_context.
  cbn [question]. rewrite Hraise. cbn.
  by rewrite append_empty_r.
Qed.

Definition store_down (q : string) : result (list Document) :=
  Raise (Exception "vector store unavailable").

Lemma retrieval_failure_becomes_answer_witness :
  store_down "hi" = Raise (Exception "vector store unavailable")
  /\ answer_of store_down hello_model "hi" sample_times
               (mkSessionState 8 None [] None)
     = "Error: vector store unavailable".
Proof.
  split; [reflexivity|].
  exact (proj1 (retrieval_failure_becomes_answer store_down hello_model "hi"
                  sample_times (mkSessionState 8 None [] None)
                  (Exception "vector store unavailable") eq_refl)).
Defined.

(** *** The turns of the history *)

(** The comprehension of [history_of] read along the list: every user
    entry that has a successor is paired with that successor. *)
Fixpoint pairs (messages : list Message) : list (string * string) :=
  match messages with
  | m :: ((m' :: _) as rest) =>
      if String.eqb (msg_role m) "user"
      then (msg_content m, msg_content m') :: pairs rest
      else pairs rest
  | _ => []
  end.

Definition pair_at (all : list Message) (i : nat) (m : Message)
  : option (string * string) :=
  if String.eqb (msg_role m) "user" && (i + 1 <? length all)
  then match all !! (i + 1) with
       | Some m' => Some (msg_content m, msg_content m')
       | None => None
       end
  else None.

Lemma pairs_from before l :
  omap (fun x => x)
       (imap (fun i m => pair_at (before ++ l) (length before + i) m)
             (take (length l - 1) l))
  = pairs l.
Proof.
  revert before. induction l as [|x [|y rest] IH]; intros before; [done|done|].
  replace (length (x :: y :: rest) - 1) with (S (length (y :: rest) - 1))
    by (cbn; lia).
  cbn [take imap omap].
  assert (Hnext : (before ++ x :: y :: rest) !! (length before + 0 + 1) = Some y).
  { rewrite lookup_app_r by lia.
    by replace (length before + 0 + 1 - length before) with 1 by lia. }
  assert (Hlen : (length before + 0 + 1 <? length (before ++ x :: y :: rest))
                 = true).
  { apply Nat.ltb_lt. rewrite length_app. cbn. lia. }
  assert (Hrest :
    omap (fun x => x)
         (imap ((fun i m => pair_at (before ++ x :: y :: rest)
                                    (length before + i) m) ∘ S)
               (take (length (y :: rest) - 1) (y :: rest)))
    = pairs (y :: rest)).
  { rewrite <- (IH (before ++ [x])).
    f_equal. apply imap_ext. intros i m _. cbn.
    rewrite <- app_assoc, length_app. cbn.
    by replace (length before + 1 + i) with (length before + S i) by lia. }
  unfold pair_at at 1. rewrite Hlen, Hnext, andb_true_r.
  change (pairs (x :: y :: rest))
    with (if String.eqb (msg_role x) "user"
          then (msg_content x, msg_content y) :: pairs (y :: rest)
          else pairs (y :: rest)).
  destruct (String.eqb (msg_role x) "user"); rewrite <- Hrest; reflexivity.
Qed.

Lemma history_of_pairs messages : history_of messages = pairs messages.
Proof.
  unfold history_of. rewrite <- (pairs_from [] messages).
  f_equal.
Qed.

(** A conversation as the session holds it: for each turn the user entry
    and the assistant entry, with their times. *)
Definition transcript (turns : list (string * string * Time * Time))
  : list Message :=
  flat_map (fun turn =>
              match turn with
              | (user, assistant, t1, t2) =>
                  [mkMessage "user" user t1;
                   mkMessage "assistant" assistant t2]
              end) turns.

Definition texts (turns : list (string * string * Time * Time))
  : list (string * string) :=
  map (fun turn => match turn with (user, assistant, _, _) => (user, assistant) end)
      turns.

Lemma pairs_transcript turns tail :
  pairs (transcript turns ++ tail)
  = texts turns ++ match tail with
                   | [] => []
                   | _ => pairs tail
                   end.
Proof.
  induction turns as [|[[[u a] t1] t2] turns IH].
  - cbn. by destruct tail.
  - cbn [transcript flat_map texts map app]. fold (transcript turns).
    fold (texts turns).
    change (pairs (mkMessage "user" u t1 :: mkMessage "assistant" a t2
                     :: transcript turns ++ tail))
      with ((u, a) :: pairs (mkMessage "assistant" a t2
                               :: transcript turns ++ tail)).
    f_equal. rewrite <- IH.
    destruct (transcript turns ++ tail) as [|m rest]; [done|].
    reflexivity.
Qed.

(** X10.  For a conversation of answered turns followed by the new
    question, the history handed to the chain is exactly the turns, in
    order, each user text with its answer.  When the entry before the new
    question is a user entry without an answer, that entry is paired with
    the new question as if the question were its answer. *)
Theorem history_of_transcript
        (turns : list (string * string * Time * Time))
        (unanswered prompt : string) (t1 t2 : Time) :
  history_of (transcript turns ++ [mkMessage "user" prompt t2])
    = texts turns
  /\ history_of (transcript turns ++ [mkMessage "user" unanswered t1;
                                       mkMessage "user" prompt t2])
     = texts turns ++ [(unanswered, prompt)].
Proof.
  rewrite !history_of_pairs, !pairs_transcript. cbn.
  split; [apply app_nil_r|done].
Qed.

(** *** A question asked in a draft *)

Lemma on_chat_input_draft_eq retriever llm prompt t w k :
  current_conversation_id (session_state w) = None ->
  next_conversation_id (db w) = S k ->
  user_exists (session_user_id (session_state w)) (db w) = true ->
  on_chat_input retriever llm prompt t w =
  on_chat_input retriever llm prompt t
    (mkWorld (create_conversation (session_user_id (session_state w))
                                  "New Chat" (t_created t) (t_updated t)
                                  (db w)).1
             (set_current_conversation_id (Some (S k)) (session_state w))).
Proof.
  intros Hcur Hnext Huser.
  destruct w as [s [user cur entries temp]].
  cbn [db session_state current_conversation_id session_user_id] in *.
  subst cur.
  unfold on_chat_input.
  unfold bind at 1. unfold modify_session at 1, modify.
  cbn [db session_state].
  unfold bind at 1. unfold get_session at 1.
  cbn [db session_state append_message current_conversation_id
       session_user_id].
  unfold bind at 1. unfold bind at 1. unfold on_db at 1.
  cbn [db session_state].
  rewrite (create_conversation_existing _ _ _ _ _ len_new_chat Huser).
  rewrite Hnext. reflexivity.
Qed.

(** In a draft of a user that the store does not have, the insert of the
    conversation is refused. *)
Lemma on_chat_input_draft_no_user retriever llm prompt t w :
  current_conversation_id (session_state w) = None ->
  user_exists (session_user_id (session_state w)) (db w) = false ->
  on_chat_input retriever llm prompt t w =
  (mkWorld (conversation_id_drawn (db w))
           (append_message (user_entry prompt t) (session_state w)),
   Raise no_user).
Proof.
  intros Hcur Huser.
  destruct w as [s [user cur entries temp]].
  cbn [db session_state current_conversation_id session_user_id] in *.
  subst cur.
  unfold on_chat_input.
  unfold bind at 1. unfold modify_session at 1, modify.
  cbn [db session_state].
  unfold bind at 1. unfold get_session at 1.
  cbn [db session_state append_message current_conversation_id
       session_user_id].
  unfold bind at 1. unfold bind at 1. unfold on_db at 1.
  cbn [db session_state].
  by rewrite (create_conversation_missing _ _ _ _ _ _
                  (varchar_fits _ _ len_new_chat) Huser).
Qed.

(** X11.  A question asked while no conversation is selected creates one:
    on a consistent store whose ids start above 0, for a user that the
    store has, the handler succeeds, the new conversation gets an id that
    was free, belongs to the user of the session, is titled from the
    question and is the one selected afterwards; it holds the user row and
    the assistant row, and no other conversation changes.  For a user that
    the store does not have the handler raises the integrity error of the
    foreign key; no conversation is selected and the tables are as they
    were. *)
Theorem question_in_draft_creates_conversation
        (retriever : string -> result (list Document))
        (llm : string -> ModelStream) (prompt : string) (t : Times)
        (w : World) :
  current_conversation_id (session_state w) = None ->
  consistent (db w) ->
  0 < next_conversation_id (db w) ->
  (user_exists (session_user_id (session_state w)) (db w) = true ->
   (on_chat_input retriever llm prompt t w).2 = Ok tt
   /\ conversations (db w) !! next_conversation_id (db w) = None
   /\ current_conversation_id
        (session_state (on_chat_input retriever llm prompt t w).1)
      = Some (next_conversation_id (db w))
   /\ conversations (db (on_chat_input retriever llm prompt t w).1)
        !! next_conversation_id (db w)
      = Some (mkConversation (session_user_id (session_state w))
                             (derived_title prompt)
                             (t_created t) (t_assistant t))
   /\ (forall k, k <> next_conversation_id (db w) ->
         conversations (db (on_chat_input retriever llm prompt t w).1) !! k
         = conversations (db w) !! k)
   /\ chat_messages (db (on_chat_input retriever llm prompt t w).1)
      = chat_messages (db w) ++
          [mkChatMessage (next_message_id (db w))
                         (next_conversation_id (db w))
                         "user" prompt (t_user_row t);
           mkChatMessage (S (next_message_id (db w)))
                         (next_conversation_id (db w)) "assistant"
                         (answer_of retriever llm prompt t (session_state w))
                         (t_assistant_row t)])
  /\ (user_exists (session_user_id (session_state w)) (db w) = false ->
      (on_chat_input retriever llm prompt t w).2
        = Raise (foreign_key_violation "conversations"
                                       "conversations_user_id_fkey")
      /\ current_conversation_id
           (session_state (on_chat_input retriever llm prompt t w).1) = None
      /\ conversations (db (on_chat_input retriever llm prompt t w).1)
         = conversations (db w)
      /\ chat_messages (db (on_chat_input retriever llm prompt t w).1)
         = chat_messages (db w)).
Proof.
  intros Hcur Hcons Hpos. split; intros Huser;
    [|by rewrite (on_chat_input_draft_no_user _ _ _ _ _ Hcur Huser)].
  destruct (next_conversation_id (db w)) as [|k] eqn:Hnext; [lia|].
  assert (Hfree : conversations (db w) !! S k = None).
  { rewrite <- Hnext. by apply next_conversation_id_free. }
  rewrite (on_chat_input_draft_eq _ _ _ _ _ k Hcur Hnext Huser).
  rewrite (on_chat_input_existing_eq _ _ _ _ _ k
             (mkConversation (session_user_id (session_state w)) "New Chat"
                             (t_created t) (t_updated t)));
    [|reflexivity
     |rewrite (create_conversation_existing _ _ _ _ _ len_new_chat Huser);
      cbn [fst db conversations];
      rewrite Hnext; apply lookup_insert_eq].
  rewrite (create_conversation_existing _ _ _ _ _ len_new_chat Huser).
  cbn [fst snd db session_state conversations chat_messages
       next_conversation_id next_message_id].
  rewrite Hnext, insert_insert_eq.
  split; [done|]. split; [done|]. split.
  { by destruct (stream_of _ _ _ _ _).2. }
  split.
  { rewrite lookup_insert_eq. reflexivity. }
  split; [|reflexivity].
  intros j Hj. by rewrite lookup_insert_ne.
Qed.

Lemma question_in_draft_creates_conversation_witness :
  current_conversation_id (session_state fresh_world) = None
  /\ consistent (db fresh_world)
  /\ 0 < next_conversation_id (db fresh_world)
  /\ user_exists 8 fresh_store = true
  /\ current_conversation_id
       (session_state (on_chat_input no_documents hello_model "What is RAG?"
                                     sample_times fresh_world).1)
     = Some 1.
Proof.
  assert (Hpos : 0 < next_conversation_id (db fresh_world)) by (cbn; lia).
  assert (Huser : user_exists 8 fresh_store = true) by (vm_compute; done).
  split; [reflexivity|]. split; [exact consistent_fresh|].
  split; [exact Hpos|]. split; [exact Huser|].
  exact (proj1 (proj2 (proj2
           (proj1 (question_in_draft_creates_conversation no_documents
                     hello_model "What is RAG?" sample_times fresh_world
                     eq_refl consistent_fresh Hpos)
                  Huser)))).
Defined.

(** *** Whose conversation is selected *)

Lemma user_id_touched role content now conv :
  user_id (touched role content now conv) = user_id conv.
Proof.
  unfold touched.
  by destruct (String.eqb (title conv) "New Chat" && String.eqb role "user").
Qed.

(** What a call does to the conversations: those it leaves had their id
    and their owner before, unless the call created them under the next
    id of the sequence. *)
Lemma run_cases hashpw s c :
  next_conversation_id s <= next_conversation_id (run hashpw s c)
  /\ forall k conv',
       k < next_conversation_id s ->
       conversations (run hashpw s c) !! k = Some conv' ->
       exists conv,
         conversations s !! k = Some conv /\ user_id conv = user_id conv'.
Proof.
  destruct c as [username password salt now|user title created updated
                 |cid role content created now|cid|user];
    unfold run.
  - destruct (register_user_store hashpw username password salt now s)
      as [->|(hash & _ & ->)];
      (split; [done|]); intros k conv' _ H; by exists conv'.
  - destruct (varchar 100 title) as [stored|] eqn:Hlen.
    + destruct (user_exists user s) eqn:Huser.
      * rewrite (create_conversation_stored _ _ _ _ _ _ Hlen Huser).
        cbn [fst conversations next_conversation_id].
        split; [lia|]. intros k conv' Hlt.
        rewrite lookup_insert_ne by lia. intros H. by exists conv'.
      * rewrite (create_conversation_missing _ _ _ _ _ _ Hlen Huser).
        cbn [fst conversation_id_drawn conversations next_conversation_id].
        split; [lia|]. intros k conv' _ H. by exists conv'.
    + rewrite (create_conversation_refused _ _ _ _ _ Hlen).
      split; [done|]. intros k conv' _ H. by exists conv'.
  - destruct (varchar 10 role) as [stored|] eqn:Hrole.
    + destruct (conversations s !! cid) as [conv|] eqn:Hconv.
      * rewrite (add_message_stored _ _ _ _ _ _ _ conv Hrole Hconv).
        cbn [fst conversations next_conversation_id].
        split; [done|]. intros k conv' _.
        destruct (decide (k = cid)) as [->|Hne].
        -- rewrite lookup_insert_eq. intros [= <-]. exists conv.
           split; [done|]. by rewrite user_id_touched.
        -- rewrite lookup_insert_ne by done. intros H. by exists conv'.
      * rewrite (add_message_missing _ _ _ _ _ _ _ Hrole Hconv).
        split; [done|]. intros k conv' _ H. by exists conv'.
    + rewrite (add_message_refused _ _ _ _ _ _ Hrole).
      split; [done|]. intros k conv' _ H. by exists conv'.
  - rewrite delete_conversation_any. cbn [fst conversations].
    split; [done|]. intros k conv' _ H.
    apply lookup_delete_Some in H as [_ H]. by exists conv'.
  - rewrite delete_all_conversations_eq. cbn [fst conversations].
    split; [done|]. intros k conv' _ H.
    apply map_lookup_filter_Some in H as [H _]. by exists conv'.
Qed.

Lemma run_next hashpw s c :
  next_conversation_id s <= next_conversation_id (run hashpw s c).
Proof. apply run_cases. Qed.

Lemma run_owner hashpw s c k conv' :
  k < next_conversation_id s ->
  conversations (run hashpw s c) !! k = Some conv' ->
  exists conv, conversations s !! k = Some conv /\ user_id conv = user_id conv'.
Proof. apply run_cases. Qed.

Lemma run_zero hashpw s c :
  0 < next_conversation_id s ->
  conversations s !! 0 = None ->
  conversations (run hashpw s c) !! 0 = None.
Proof.
  intros Hpos Hzero.
  destruct (conversations (run hashpw s c) !! 0) as [conv'|] eqn:H; [|done].
  destruct (run_owner hashpw s c 0 conv' Hpos H) as (conv & Hc & _).
  congruence.
Qed.

(** The handlers as they act on the world. *)
Lemma on_select_eq c w :
  exists entries,
    (on_select c w).1 =
    mkWorld (db w)
            (set_messages entries
               (set_current_conversation_id (Some c) (session_state w))).
Proof.
  destruct w as [s ss]. destruct c as [|k]; eexists; reflexivity.
Qed.

Lemma on_delete_eq hashpw c w :
  (on_delete c w).1 =
  mkWorld (run hashpw (db w) (DeleteConversation c))
          (if decide (current_conversation_id (session_state w) = Some c)
           then draft (session_state w) else session_state w).
Proof.
  destruct w as [s ss]. unfold on_delete, bind, on_db, get_session.
  cbn [db session_state]. rewrite delete_conversation_any.
  unfold run. rewrite delete_conversation_any. cbn [fst session_state].
  by destruct (decide (current_conversation_id ss = Some c)).
Qed.

Lemma on_clear_all_eq hashpw w :
  (on_clear_all w).1 =
  mkWorld (run hashpw (db w)
               (DeleteAllConversations (session_user_id (session_state w))))
          (draft (session_state w)).
Proof.
  destruct w as [s ss]. unfold on_clear_all, bind, on_db, get_session.
  cbn [db session_state]. rewrite delete_all_conversations_eq.
  unfold run. by rewrite delete_all_conversations_eq.
Qed.

Lemma two_messages hashpw s c prompt answer cu tu ca ta conv :
  conversations s !! c = Some conv ->
  run hashpw (run hashpw s (AddMessage c "user" prompt cu tu))
      (AddMessage c "assistant" answer ca ta)
  = mkStore (users s)
            (<[c := set_updated_at ta (touched "user" prompt tu conv)]>
               (conversations s))
            (chat_messages s ++
               [mkChatMessage (next_message_id s) c "user" prompt cu;
                mkChatMessage (S (next_message_id s)) c "assistant" answer ca])
            (next_user_id s)
            (next_conversation_id s) (S (S (next_message_id s))).
Proof.
  intros Hconv. unfold run.
  rewrite (add_message_existing _ _ _ _ _ _ conv len_user Hconv). cbn [fst].
  rewrite (add_message_existing _ _ _ _ _ _ (touched "user" prompt tu conv)
             len_assistant)
    by (cbn [conversations]; apply lookup_insert_eq).
  cbn [fst users conversations chat_messages next_user_id
       next_conversation_id next_message_id].
  rewrite insert_insert_eq, <- app_assoc.
  by rewrite (touched_keeps_title "assistant") by (by left).
Qed.

(** What a question does to the store and to the selection. *)
Lemma on_chat_input_world hashpw retriever llm prompt t w :
  0 < next_conversation_id (db w) ->
  (forall c, current_conversation_id (session_state w) = Some c -> 0 < c) ->
  exists calls ss',
    (on_chat_input retriever llm prompt t w).1
      = mkWorld (foldl (run hashpw) (db w) calls) ss'
    /\ session_user_id ss' = session_user_id (session_state w)
    /\ (current_conversation_id ss'
        = current_conversation_id (session_state w)
        \/ (current_conversation_id (session_state w) = None
            /\ current_conversation_id ss'
               = Some (next_conversation_id (db w))
            /\ user_exists (session_user_id (session_state w)) (db w) = true
            /\ exists rest,
                 calls = CreateConversation
                           (session_user_id (session_state w)) "New Chat"
                           (t_created t) (t_updated t) :: rest)).
Proof.
  intros Hpos Hcur.
  destruct (current_conversation_id (session_state w)) as [[|k]|] eqn:Hc.
  - specialize (Hcur 0 eq_refl). lia.
  - destruct (conversations (db w) !! S k) as [conv|] eqn:Hconv.
    + rewrite (on_chat_input_existing_eq _ _ _ _ _ _ conv Hc Hconv). cbn [fst].
      eexists [AddMessage (S k) "user" prompt (t_user_row t) (t_user t);
               AddMessage (S k) "assistant" _ (t_assistant_row t)
                          (t_assistant t)], _.
      split.
      { cbn [foldl]. rewrite (two_messages _ _ _ _ _ _ _ _ _ conv Hconv).
        reflexivity. }
      split.
      { by destruct (stream_of _ _ _ _ _).2. }
      left. destruct (stream_of _ _ _ _ _).2; cbn; by rewrite Hc.
    + rewrite (on_chat_input_missing _ _ _ _ _ _ Hc Hconv). cbn [fst].
      exists [AddMessage (S k) "user" prompt (t_user_row t) (t_user t)],
             (append_message (user_entry prompt t) (session_state w)).
      split.
      { cbn [foldl run].
        by rewrite (add_message_missing _ _ _ _ _ _ _ (varchar_fits _ _ len_user)
                Hconv). }
      split; [done|]. left. cbn. by rewrite Hc.
  - destruct (user_exists (session_user_id (session_state w)) (db w))
      eqn:Huser.
    + destruct (next_conversation_id (db w)) as [|k] eqn:Hnext; [lia|].
      rewrite (on_chat_input_draft_eq _ _ _ _ _ k Hc Hnext Huser).
      rewrite (on_chat_input_existing_eq _ _ _ _ _ k
                 (mkConversation (session_user_id (session_state w))
                                 "New Chat" (t_created t) (t_updated t)));
        [|reflexivity
         |rewrite (create_conversation_existing _ _ _ _ _ len_new_chat Huser);
          cbn [fst db conversations];
          rewrite Hnext; apply lookup_insert_eq].
      cbn [fst db session_state].
      eexists [CreateConversation (session_user_id (session_state w))
                                  "New Chat" (t_created t) (t_updated t);
               AddMessage (S k) "user" prompt (t_user_row t) (t_user t);
               AddMessage (S k) "assistant" _ (t_assistant_row t)
                          (t_assistant t)], _.
      split.
      { cbn [foldl].
        rewrite (two_messages _ _ _ _ _ _ _ _ _
                   (mkConversation (session_user_id (session_state w))
                                   "New Chat" (t_created t) (t_updated t)));
          [reflexivity|].
        unfold run at 1.
        rewrite (create_conversation_existing _ _ _ _ _ len_new_chat Huser).
        cbn [fst conversations]. rewrite Hnext. apply lookup_insert_eq. }
      split.
      { by destruct (stream_of _ _ _ _ _).2. }
      right. split; [done|]. split; [|split; [done|by eexists]].
      by destruct (stream_of _ _ _ _ _).2.
    + rewrite (on_chat_input_draft_no_user _ _ _ _ _ Hc Huser). cbn [fst].
      exists [CreateConversation (session_user_id (session_state w))
                                 "New Chat" (t_created t) (t_updated t)],
             (append_message (user_entry prompt t) (session_state w)).
      split.
      { cbn [foldl run].
        by rewrite (create_conversation_missing _ _ _ _ _ _
                      (varchar_fits _ _ len_new_chat) Huser). }
      split; [done|]. left. cbn. by rewrite Hc.
Qed.

(** What can happen to the world of one browser session: its own
    handlers, and writes to the store made from anywhere else. *)
Inductive event : Type :=
| Login (user : nat)
| NewChat
| Select (conv_id : nat)
| Delete (conv_id : nat)
| ClearAll
| Ask (prompt : string) (t : Times)
| Elsewhere (c : call).

(** The sidebar has a button only for the conversations it lists. *)
Definition listed (w : World) (conv_id : nat) : bool :=
  bool_decide (conv_id ∈ (sidebar w).*1).

Section Session.
Variable hashpw : string -> string -> result string.
Variable retriever : string -> result (list Document).
Variable llm : string -> ModelStream.

Definition react (w : World) (e : event) : World :=
  match e with
  | Login user => mkWorld (db w) (login_succeeded user (session_state w))
  | NewChat => (on_new_chat w).1
  | Select conv_id => if listed w conv_id then (on_select conv_id w).1 else w
  | Delete conv_id => if listed w conv_id then (on_delete conv_id w).1 else w
  | ClearAll => (on_clear_all w).1
  | Ask prompt t => (on_chat_input retriever llm prompt t w).1
  | Elsewhere c => mkWorld (run hashpw (db w) c) (session_state w)
  end.

(** The worlds that a browser session can be in: an empty store and a
    session with no conversation selected, and what the events make of
    it. *)
Definition reached (user : nat) (events : list event) : World :=
  foldl react (mkWorld empty_store (mkSessionState user None [] None)) events.

Definition selection_owned (w : World) : Prop :=
  forall c conv,
    current_conversation_id (session_state w) = Some c ->
    conversations (db w) !! c = Some conv ->
    user_id conv = session_user_id (session_state w).

Definition safe (w : World) : Prop :=
  consistent (db w)
  /\ 0 < next_conversation_id (db w)
  /\ conversations (db w) !! 0 = None
  /\ (forall c, current_conversation_id (session_state w) = Some c ->
                0 < c < next_conversation_id (db w))
  /\ selection_owned w.

Lemma safe_run d ss c :
  safe (mkWorld d ss) -> safe (mkWorld (run hashpw d c) ss).
Proof.
  intros (Hcons & Hpos & Hzero & Hcur & Hown). cbn [db session_state] in *.
  pose proof (run_next hashpw d c) as Hnext.
  split; [by apply consistent_run|]. split; [cbn; lia|].
  split; [by apply run_zero|]. split.
  - intros k Hk. specialize (Hcur k Hk). cbn [db]. lia.
  - intros k conv' Hk Hconv'. cbn [db session_state] in *.
    destruct (run_owner hashpw d c k conv') as (conv & Hconv & <-); [|done|].
    + by apply Hcur.
    + by apply (Hown k).
Qed.

Lemma safe_runs d ss calls :
  safe (mkWorld d ss) -> safe (mkWorld (foldl (run hashpw) d calls) ss).
Proof.
  revert d. induction calls as [|c calls IH]; intros d Hsafe; [done|].
  cbn [foldl]. by apply IH, safe_run.
Qed.

Lemma safe_deselect d ss ss' :
  safe (mkWorld d ss) ->
  current_conversation_id ss' = None ->
  safe (mkWorld d ss').
Proof.
  intros (Hcons & Hpos & Hzero & _ & _) Hnone. cbn [db session_state] in *.
  split; [exact Hcons|]. split; [exact Hpos|]. split; [exact Hzero|].
  unfold selection_owned. cbn [db session_state]. rewrite Hnone.
  split; [intros k|intros k conv]; discriminate.
Qed.

Lemma safe_same_selection d ss ss' :
  safe (mkWorld d ss) ->
  current_conversation_id ss' = current_conversation_id ss ->
  session_user_id ss' = session_user_id ss ->
  safe (mkWorld d ss').
Proof.
  intros (Hcons & Hpos & Hzero & Hcur & Hown) Hc Hu.
  unfold selection_owned in *. cbn [db session_state] in *.
  split; [exact Hcons|]. split; [exact Hpos|]. split; [exact Hzero|].
  unfold selection_owned. cbn [db session_state]. rewrite Hc, Hu. by split.
Qed.

Lemma safe_react w e : safe w -> safe (react w e).
Proof.
  intros Hsafe. destruct w as [d ss].
  destruct e as [user| |c|c| |prompt t|c]; cbn [react].
  - by apply (safe_deselect d ss).
  - by apply (safe_deselect d ss).
  - destruct (listed (mkWorld d ss) c) eqn:Hlisted; [|done].
    destruct (on_select_eq c (mkWorld d ss)) as [entries ->].
    cbn [db session_state].
    apply bool_decide_eq_true in Hlisted.
    apply list_elem_of_fmap in Hlisted as ([c' conv] & -> & Hin).
    apply get_user_conversations_rows in Hin as [Hconv Hu].
    cbn [fst snd db session_state] in *.
    destruct Hsafe as (Hcons & Hpos & Hzero & Hcur & Hown).
    cbn [db session_state] in *.
    split; [exact Hcons|]. split; [exact Hpos|]. split; [exact Hzero|].
    unfold selection_owned.
    cbn [db session_state set_messages set_current_conversation_id
         current_conversation_id session_user_id].
    split.
    + intros k [= <-]. split.
      * destruct c' as [|c']; [congruence|lia].
      * destruct Hcons as (Hk & _). apply Hk. by eexists.
    + intros k conv' [= <-] Hconv'. congruence.
  - destruct (listed (mkWorld d ss) c) eqn:Hlisted; [|done].
    rewrite (on_delete_eq hashpw). cbn [db session_state].
    destruct (decide (current_conversation_id ss = Some c)).
    + apply (safe_deselect _ ss); [|done]. by apply safe_run.
    + by apply safe_run.
  - rewrite (on_clear_all_eq hashpw). cbn [db session_state].
    apply (safe_deselect _ ss); [|done]. by apply safe_run.
  - destruct Hsafe as (Hcons & Hpos & Hzero & Hcur & Hown).
    destruct (on_chat_input_world hashpw retriever llm prompt t
                                  (mkWorld d ss))
      as (calls & ss' & -> & Hu & Hcase).
    { exact Hpos. }
    { intros k Hk. by apply Hcur. }
    cbn [db session_state] in *.
    destruct Hcase as [Hsame|(Hnone & Hnew & Huser & rest & ->)].
    + apply safe_runs. by apply (safe_same_selection d ss).
    + cbn [foldl]. apply safe_runs.
      pose proof (next_conversation_id_free d Hcons) as Hfree.
      split.
      { apply (consistent_run hashpw d (CreateConversation _ _ _ _)), Hcons. }
      unfold run.
      rewrite (create_conversation_existing _ _ _ _ _ len_new_chat Huser).
      cbn [fst db session_state conversations next_conversation_id].
      split; [lia|]. split; [by rewrite lookup_insert_ne by lia|].
      split.
      * intros k. rewrite Hnew. intros [= <-]. lia.
      * intros k conv'. cbn [db session_state conversations].
        rewrite Hnew. intros [= <-]. rewrite lookup_insert_eq.
        intros [= <-]. by rewrite Hu.
  - by apply safe_run.
Qed.

Lemma safe_reached user events : safe (reached user events).
Proof.
  unfold reached.
  assert (H : forall w, safe w -> safe (foldl react w events)).
  { induction events as [|e events IH]; intros w Hw; cbn [foldl]; [done|].
    by apply IH, safe_react. }
  apply H.
  split; [exact consistent_empty|]. split; [cbn; lia|].
  split; [done|]. split; [done|]. intros c conv Hc. cbn in Hc. done.
Qed.

(** X12.  Start from an empty store and a session with no conversation
    selected, and let anything happen in any order: log-ins, the New Chat
    button, the select and delete buttons of listed conversations, Clear
    All History, questions, and arbitrary writes to the store from
    elsewhere, registrations among them.  Then the conversation selected
    in the session, if the store has it, belongs to the user of the
    session, and the store is consistent. *)
Theorem selected_conversation_is_own (user : nat) (events : list event) :
  selection_owned
    (foldl react (mkWorld empty_store (mkSessionState user None [] None))
           events)
  /\ consistent
       (db (foldl react (mkWorld empty_store
                                 (mkSessionState user None [] None))
                  events)).
Proof.
  destruct (safe_reached user events) as (Hcons & _ & _ & _ & Hown).
  by split.
Qed.

End Session.



End AppMore.

(* ===================================================================== *)
(** ** Further properties of the context curator *)
(* ===================================================================== *)

Module RagChainMore.
Import Py RagChain RagChainProps.

(** No character of the string is a line feed. *)
Fixpoint lf_free (s : string) : bool :=
  match s with
  | EmptyString => true
  | String c s' => negb (Ascii.eqb c LF) && lf_free s'
  end.

Lemma lf_free_contains s : lf_free s = true -> contains nl s = false.
Proof.
  induction s as [|c s IH]; [done|]. cbn [lf_free].
  intros H. apply andb_true_iff in H as [Hc Hs].
  change (contains nl (String c s))
    with (String.prefix nl (String c s) || contains nl s).
  rewrite (IH Hs), orb_false_r. unfold nl. cbn [String.prefix].
  destruct (ascii_dec LF c) as [<-|Hne]; [|done].
  by rewrite Ascii.eqb_refl in Hc.
Qed.

Lemma lf_free_append a b :
  lf_free a = true -> lf_free b = true -> lf_free (a +:+ b) = true.
Proof.
  intros Ha Hb. induction a as [|c a IH]; [done|].
  change (String c a +:+ b) with (String c (a +:+ b)).
  cbn [lf_free] in *. apply andb_true_iff in Ha as [Hc Ha].
  by rewrite Hc, IH.
Qed.

Lemma lf_free_lstrip s : lf_free s = true -> lf_free (lstrip s) = true.
Proof.
  induction s as [|c s IH]; [done|]. intros H. cbn [lstrip].
  destruct (isspace c); [|done].
  cbn [lf_free] in H. apply andb_true_iff in H as [_ H]. by apply IH.
Qed.

Lemma lf_free_rstrip s : lf_free s = true -> lf_free (rstrip s) = true.
Proof.
  induction s as [|c s IH]; [done|]. intros H. cbn [rstrip].
  cbn [lf_free] in H. apply andb_true_iff in H as [Hc H].
  specialize (IH H). destruct (rstrip s) as [|c' r].
  - destruct (isspace c); [done|]. cbn [lf_free]. by rewrite Hc.
  - cbn [lf_free] in *. by rewrite Hc, IH.
Qed.

Lemma lf_free_split_lines s : Forall (fun l => lf_free l = true) (split_lines s).
Proof.
  induction s as [|c s IH]; [by repeat constructor|].
  cbn [split_lines]. destruct (Ascii.eqb c LF) eqn:Hc.
  - by constructor.
  - destruct (split_lines s) as [|l ls]; [by repeat constructor; cbn; rewrite Hc|].
    apply Forall_cons in IH as [Hl Hls]. constructor; [|done].
    cbn [lf_free]. by rewrite Hc, Hl.
Qed.

Lemma lf_free_clean_loop lines clean_lines :
  Forall (fun l => lf_free l = true) lines ->
  Forall (fun l => lf_free l = true) clean_lines ->
  Forall (fun l => lf_free l = true) (clean_loop lines clean_lines).
Proof.
  revert clean_lines.
  induction lines as [|line rest IH]; intros clean_lines Hl Hc; [done|].
  apply Forall_cons in Hl as [Hline Hrest]. cbn [clean_loop].
  destruct (bool_decide (strip line ∈ navigation_lines)); [by apply IH|].
  apply IH; [done|]. apply Forall_app. split; [done|].
  constructor; [|done]. by apply lf_free_rstrip, lf_free_lstrip.
Qed.

Lemma lf_free_join sep l :
  lf_free sep = true ->
  Forall (fun x => lf_free x = true) l ->
  lf_free (join sep l) = true.
Proof.
  intros Hsep. induction l as [|x [|y l] IH]; intros Hl; [done| |].
  - by apply Forall_cons in Hl as [Hx _].
  - apply Forall_cons in Hl as [Hx Hl]. cbn [join].
    apply lf_free_append; [done|]. apply lf_free_append; [done|].
    by apply IH.
Qed.

(** X13.  The cleaned content of a page is a single line: whatever the
    page holds, [clean_content] contains no line feed, so an entry of the
    context has its label on the first line and the content on the
    second. *)
Theorem clean_content_single_line (content : string) :
  contains nl (clean_content content) = false.
Proof.
  apply lf_free_contains. unfold clean_content.
  apply lf_free_join; [done|].
  apply lf_free_clean_loop; [apply lf_free_split_lines|done].
Qed.

(** X14.  [format_chat_history] itself cuts nothing: for a history of any
    length it writes two lines for every turn, oldest first; the limit of
    three turns is applied by the caller in app.py only. *)
Theorem format_chat_history_all_turns
        (turn : string * string) (history : list (string * string)) :
  format_chat_history (turn :: history)
  = join nl (flat_map turn_lines (turn :: history))
  /\ length (flat_map turn_lines (turn :: history))
     = 2 * length (turn :: history).
Proof.
  split.
  - unfold format_chat_history. by rewrite history_loop_flat_map.
  - generalize (turn :: history) as h. intros h.
    induction h as [|t h IH]; [done|]. cbn [flat_map length app turn_lines].
    rewrite IH. cbn. lia.
Qed.

End RagChainMore.

(* ===================================================================== *)
(** ** Properties of the rebuild script *)
(* ===================================================================== *)

Module RebuildProps.
Import Py RagChain DocLoader RebuildVectorstore RagChainProps.

(** A chunk that [filter_good_documents] keeps. *)
Definition good (chunk : Document) : bool :=
  negb (contains "Redirecting" (page_content chunk))
  && negb (len (strip (page_content chunk)) <? 100)
  && negb (2 <? count "Skip to" (page_content chunk)).

Lemma filter_loop_spec chunks good_chunks bad_count :
  filter_loop chunks good_chunks bad_count
  = (good_chunks ++ List.filter good chunks,
     bad_count + length (List.filter (fun c => negb (good c)) chunks)).
Proof.
  revert good_chunks bad_count.
  induction chunks as [|chunk rest IH]; intros good_chunks bad_count.
  - cbn. by rewrite app_nil_r, Nat.add_0_r.
  - cbn [filter_loop List.filter].
    assert (Hg : good chunk
                 = negb (contains "Redirecting" (page_content chunk))
                   && negb (len (strip (page_content chunk)) <? 100)
                   && negb (2 <? count "Skip to" (page_content chunk)))
      by reflexivity.
    rewrite Hg. clear Hg.
    destruct (contains "Redirecting" (page_content chunk)); cbn [negb andb];
      [rewrite IH; cbn [length]; f_equal; lia|].
    destruct (len (strip (page_content chunk)) <? 100); cbn [negb andb];
      [rewrite IH; cbn [length]; f_equal; lia|].
    destruct (2 <? count "Skip to" (page_content chunk)); cbn [negb andb];
      [rewrite IH; cbn [length]; f_equal; lia|].
    rewrite IH, <- app_assoc. reflexivity.
Qed.

Lemma filter_good_documents_filter chunks :
  filter_good_documents chunks = List.filter good chunks.
Proof. unfold filter_good_documents. by rewrite filter_loop_spec. Qed.

Lemma good_iff chunk :
  good chunk = true <->
  contains "Redirecting" (page_content chunk) = false
  /\ 100 <= len (strip (page_content chunk))
  /\ count "Skip to" (page_content chunk) <= 2.
Proof.
  unfold good.
  rewrite !andb_true_iff, !negb_true_iff, !Nat.ltb_ge. tauto.
Qed.

Lemma filter_filter_same {A} (f : A -> bool) l :
  List.filter f (List.filter f l) = List.filter f l.
Proof.
  induction l as [|x l IH]; [done|]. cbn [List.filter].
  destruct (f x) eqn:Hx; [|done]. cbn [List.filter]. by rewrite Hx, IH.
Qed.

Lemma length_filter_split {A} (f : A -> bool) l :
  length (List.filter f l) + length (List.filter (fun x => negb (f x)) l)
  = length l.
Proof.
  induction l as [|x l IH]; [done|]. cbn [List.filter].
  destruct (f x); cbn [negb length]; lia.
Qed.

(** X15.  [filter_good_documents] keeps the chunks, in their order, that
    do not contain [Redirecting], have at least 100 characters once
    stripped and contain [Skip to] at most twice, and drops the others;
    the number it reports as bad and the number it keeps add up to the
    number of chunks; filtering its result again changes nothing. *)
Theorem filter_good_documents_spec (chunks : list Document) (chunk : Document) :
  (In chunk (filter_good_documents chunks) <->
   In chunk chunks
   /\ contains "Redirecting" (page_content chunk) = false
   /\ 100 <= len (strip (page_content chunk))
   /\ count "Skip to" (page_content chunk) <= 2)
  /\ filter_good_documents chunks `sublist_of` chunks
  /\ (filter_loop chunks [] 0).2 + length (filter_good_documents chunks)
     = length chunks
  /\ filter_good_documents (filter_good_documents chunks)
     = filter_good_documents chunks.
Proof.
  rewrite !filter_good_documents_filter. split.
  { rewrite List.filter_In, good_iff. tauto. }
  split.
  { induction chunks as [|c chunks IH]; [constructor|]. cbn [List.filter].
    destruct (good c); [by apply sublist_skip|by apply sublist_cons]. }
  split.
  { rewrite filter_loop_spec. cbn [snd].
    pose proof (length_filter_split good chunks). lia. }
  apply filter_filter_same.
Qed.

(** X16.  A chunk that [filter_good_documents] let into the vector store
    can still be skipped by [format_docs], but only by the third guard: it
    is skipped exactly when it contains [Skip to main content] and has
    fewer than 200 characters. *)
Theorem kept_chunk_skipped_only_as_navigation
        (chunks : list Document) (chunk : Document) :
  In chunk (filter_good_documents chunks) ->
  skip_page (page_content chunk)
  = contains "Skip to main content" (page_content chunk)
    && (len (page_content chunk) <? 200).
Proof.
  rewrite filter_good_documents_filter, List.filter_In, good_iff.
  intros (_ & Hred & Hlen & _). unfold skip_page. rewrite Hred.
  by destruct (Nat.ltb_spec (len (strip (page_content chunk))) 100); [lia|].
Qed.

Definition short_navigation_chunk : Document :=
  mkDocument ("Skip to main content" +:+ times "x" 130) ∅.

Lemma kept_chunk_skipped_only_as_navigation_witness :
  In short_navigation_chunk (filter_good_documents [short_navigation_chunk])
  /\ skip_page (page_content short_navigation_chunk) = true.
Proof.
  assert (Hin : In short_navigation_chunk
                   (filter_good_documents [short_navigation_chunk]))
    by (vm_compute; by left).
  split; [exact Hin|].
  rewrite (kept_chunk_skipped_only_as_navigation _ _ Hin).
  vm_compute. reflexivity.
Defined.

Section Rebuild.
Variable web_load : string -> result (list Document).
Variable split_document : nat -> nat -> Document -> list Document.
Variable VectorStore : Type.
Variable from_documents :
  list Document -> option VectorStore -> option VectorStore * result VectorStore.
Variable similarity_search :
  VectorStore -> string -> nat -> result (list Document).

(** X17.  When no chunk of the documentation is good, [rebuild_vectorstore]
    returns [False] without building a store, and the store that was there
    before is gone: the directory is deleted before the documentation is
    loaded. *)
Theorem rebuild_without_good_chunks (disk : option VectorStore) :
  filter_good_documents
    (load_all_documentation web_load split_document).2 = [] ->
  rebuild_vectorstore web_load split_document VectorStore from_documents
                      similarity_search disk
  = (None, Ok false).
Proof.
  intros Hnone. unfold rebuild_vectorstore, bind, modify, ret.
  destruct (load_all_documentation web_load split_document) as [docs chunks].
  cbn [snd] in Hnone. rewrite Hnone. cbn. by destruct disk.
Qed.
End Rebuild.

Definition site_down (url : string) : result (list Document) :=
  Raise (Exception "connection refused").

Lemma rebuild_without_good_chunks_witness :
  filter_good_documents
    (load_all_documentation site_down (fun _ _ d => [d])).2 = []
  /\ rebuild_vectorstore site_down (fun _ _ d => [d]) nat
       (fun _ disk => (disk, Ok 0)) (fun _ _ _ => Ok []) (Some 7)
     = (None, Ok false).
Proof.
  assert (H : filter_good_documents
                (load_all_documentation site_down (fun _ _ d => [d])).2 = [])
    by (vm_compute; reflexivity).
  split; [exact H|].
  exact (rebuild_without_good_chunks site_down (fun _ _ d => [d]) nat
           (fun _ disk => (disk, Ok 0)) (fun _ _ _ => Ok []) (Some 7) H).
Defined.

End RebuildProps.

(* ===================================================================== *)
(** ** Further properties of the document loader *)
(* ===================================================================== *)

Module DocLoaderMore.
Import Py RagChain DocLoader DocLoaderProps.

Section Loader.
Variable web_load : string -> result (list Document).
Variable split_document : nat -> nat -> Document -> list Document.

Lemma load_loop_acc urls source_name all_docs :
  load_loop web_load urls source_name all_docs
  = all_docs ++ load_loop web_load urls source_name [].
Proof.
  revert all_docs. induction urls as [|url rest IH]; intros all_docs.
  - cbn. by rewrite app_nil_r.
  - cbn [load_loop]. destruct (web_load url) as [docs|e]; [|apply IH].
    cbv zeta. rewrite IH. rewrite (IH (([] ++ _) ++ _)).
    cbn [app]. by rewrite !app_assoc.
Qed.

Lemma load_app urls1 urls2 source_name :
  load_documents_from_urls web_load (urls1 ++ urls2) source_name
  = load_documents_from_urls web_load urls1 source_name
    ++ load_documents_from_urls web_load urls2 source_name.
Proof.
  unfold load_documents_from_urls.
  induction urls1 as [|url rest IH]; [done|].
  cbn [app load_loop]. destruct (web_load url) as [docs|e]; [|apply IH].
  cbv zeta. rewrite load_loop_acc, (load_loop_acc rest).
  by rewrite IH, app_assoc.
Qed.

Lemma elem_of_load urls source_name d :
  d ∈ load_documents_from_urls web_load urls source_name <->
  exists url docs d0,
    url ∈ urls /\ web_load url = Ok docs /\ d0 ∈ docs
    /\ d = tag source_name url d0.
Proof.
  unfold load_documents_from_urls.
  induction urls as [|url rest IH].
  - cbn. split; [by intros ?%elem_of_nil|].
    by intros (url & docs & d0 & ?%elem_of_nil & _).
  - cbn [load_loop]. destruct (web_load url) as [docs|e] eqn:Hload.
    + cbv zeta. rewrite load_loop_acc. cbn [app].
      rewrite !elem_of_app, IH. split.
      * intros [[Hd|Hd]|(url' & docs' & d0 & Hin & Hl & Hd0 & ->)].
        -- apply list_elem_of_fmap in Hd as (d0 & -> & Hd0).
           exists url, docs, d0. repeat split; try done. by left.
        -- apply list_elem_of_fmap in Hd as (d0 & -> & Hd0).
           exists url, docs, d0. repeat split; try done. by left.
        -- exists url', docs', d0. repeat split; try done. by right.
      * intros (url' & docs' & d0 & Hin & Hl & Hd0 & ->).
        apply elem_of_cons in Hin as [->|Hin].
        -- left. left. rewrite Hload in Hl. injection Hl as <-.
           apply list_elem_of_fmap. by exists d0.
        -- right. by exists url', docs', d0.
    + rewrite IH. split.
      * intros (url' & docs' & d0 & Hin & Hl & Hd0 & ->).
        exists url', docs', d0. repeat split; try done. by right.
      * intros (url' & docs' & d0 & Hin & Hl & Hd0 & ->).
        apply elem_of_cons in Hin as [->|Hin]; [congruence|].
        by exists url', docs', d0.
Qed.

Lemma loaded_document_tagged urls source_name d :
  d ∈ load_documents_from_urls web_load urls source_name ->
  metadata d !! "source_framework" = Some source_name
  /\ exists url docs d0,
       url ∈ urls /\ web_load url = Ok docs /\ d0 ∈ docs
       /\ page_content d = page_content d0
       /\ metadata d !! "source_url" = Some url.
Proof.
  intros Hd. apply elem_of_load in Hd as (url & docs & d0 & Hin & Hl & Hd0 & ->).
  split.
  - unfold tag. cbn [metadata].
    rewrite lookup_insert_ne by done. apply lookup_insert_eq.
  - exists url, docs, d0. repeat split; try done.
    unfold tag. cbn [metadata]. apply lookup_insert_eq.
Qed.

(** X18.  Every document that [load_documents_from_urls] returns is a
    document that one of the given URLs loaded, with its text unchanged
    and its metadata naming the source and that URL; a URL whose load
    raises adds nothing and does not stop the others; and loading a list
    of URLs gives what loading its parts gives, one after the other. *)
Theorem load_documents_from_urls_spec
        (urls urls' : list string) (source_name : string) (d : Document) :
  (d ∈ load_documents_from_urls web_load urls source_name ->
   metadata d !! "source_framework" = Some source_name
   /\ exists url docs d0,
        url ∈ urls /\ web_load url = Ok docs /\ d0 ∈ docs
        /\ page_content d = page_content d0
        /\ metadata d !! "source_url" = Some url)
  /\ (forall url e,
        web_load url = Raise e ->
        load_documents_from_urls web_load (urls ++ url :: urls') source_name
        = load_documents_from_urls web_load (urls ++ urls') source_name)
  /\ load_documents_from_urls web_load (urls ++ urls') source_name
     = load_documents_from_urls web_load urls source_name
       ++ load_documents_from_urls web_load urls' source_name.
Proof.
  split; [apply loaded_document_tagged|].
  split; [|apply load_app].
  intros url e Hraise. rewrite !load_app. f_equal.
  unfold load_documents_from_urls. cbn [load_loop]. by rewrite Hraise.
Qed.

Lemma all_docs_eq :
  (load_all_documentation web_load split_document).1
  = (load_documents_from_urls web_load LANGCHAIN_URLS "langchain"
     ++ load_documents_from_urls web_load LANGGRAPH_URLS "langgraph")
    ++ load_documents_from_urls web_load LANGSMITH_URLS "langsmith".
Proof.
  unfold load_all_documentation. cbv zeta. cbv beta iota delta [fst].
  change ([] ++ ?x) with x. reflexivity.
Qed.

Lemma chunks_eq :
  (load_all_documentation web_load split_document).2
  = flat_map (split_document 1000 200)
             (load_all_documentation web_load split_document).1.
Proof.
  unfold load_all_documentation. cbv zeta. cbv beta iota delta [fst snd].
  unfold split_documents, text_splitter_split_documents. cbv zeta.
  reflexivity.
Qed.

(** X19.  Every document that [load_all_documentation] returns names one
    of the three frameworks as its source and a URL of that framework's
    list, and the chunks are those of the text splitter, with chunk size
    1000 and overlap 200, for these documents in their order. *)
Theorem load_all_documentation_spec (d : Document) :
  (d ∈ (load_all_documentation web_load split_document).1 ->
   exists source_name url,
     metadata d !! "source_framework" = Some source_name
     /\ metadata d !! "source_url" = Some url
     /\ ((source_name = "langchain" /\ url ∈ LANGCHAIN_URLS)
         \/ (source_name = "langgraph" /\ url ∈ LANGGRAPH_URLS)
         \/ (source_name = "langsmith" /\ url ∈ LANGSMITH_URLS)))
  /\ (load_all_documentation web_load split_document).2
     = flat_map (split_document 1000 200)
                (load_all_documentation web_load split_document).1.
Proof.
  split; [|exact chunks_eq].
  rewrite all_docs_eq, !elem_of_app.
  intros [[Hd|Hd]|Hd];
    apply loaded_document_tagged in Hd
      as (Hsrc & url & docs & d0 & Hin & _ & _ & _ & Hurl).
  - exists "langchain", url. split; [exact Hsrc|]. split; [exact Hurl|].
    left. split; [reflexivity|exact Hin].
  - exists "langgraph", url. split; [exact Hsrc|]. split; [exact Hurl|].
    right. left. split; [reflexivity|exact Hin].
  - exists "langsmith", url. split; [exact Hsrc|]. split; [exact Hurl|].
    right. right. split; [reflexivity|exact Hin].
Qed.
End Loader.

Definition one_page (url : string) : result (list Document) :=
  Ok [mkDocument ("page at " +:+ url) ∅].

Lemma load_documents_from_urls_spec_witness :
  tag "langsmith" "https://docs.smith.langchain.com/"
      (mkDocument "page at https://docs.smith.langchain.com/" ∅)
    ∈ load_documents_from_urls one_page
        ["https://docs.smith.langchain.com/"] "langsmith"
  /\ metadata (tag "langsmith" "https://docs.smith.langchain.com/"
                  (mkDocument "page at https://docs.smith.langchain.com/" ∅))
       !! "source_framework" = Some "langsmith".
Proof.
  assert (Hin : tag "langsmith" "https://docs.smith.langchain.com/"
                    (mkDocument "page at https://docs.smith.langchain.com/" ∅)
                  ∈ load_documents_from_urls one_page
                      ["https://docs.smith.langchain.com/"] "langsmith")
    by (vm_compute; left).
  split; [exact Hin|].
  exact (proj1 (proj1 (load_documents_from_urls_spec one_page
                         ["https://docs.smith.langchain.com/"] []
                         "langsmith" _) Hin)).
Defined.

(** A loader for which only the first LangChain page exists. *)
Definition introduction_only (url : string) : result (list Document) :=
  if String.eqb url "https://python.langchain.com/docs/introduction/"
  then Ok [mkDocument "Introduction" ∅]
  else Raise (Exception "404").

Definition introduction_page : Document :=
  tag "langchain" "https://python.langchain.com/docs/introduction/"
      (mkDocument "Introduction" ∅).

Lemma load_all_documentation_spec_witness :
  introduction_page
    ∈ (load_all_documentation introduction_only (fun _ _ d => [d])).1
  /\ exists source_name url,
       metadata introduction_page !! "source_framework" = Some source_name
       /\ metadata introduction_page !! "source_url" = Some url.
Proof.
  assert (Hin : introduction_page
                  ∈ (load_all_documentation introduction_only
                                            (fun _ _ d => [d])).1)
    by (vm_compute; left).
  split; [exact Hin|].
  destruct (proj1 (load_all_documentation_spec introduction_only
                     (fun _ _ d => [d]) introduction_page) Hin)
    as (source_name & url & Hsrc & Hurl & _).
  by exists source_name, url.
Defined.

End DocLoaderMore.

(* ===================================================================== *)
(** ** Properties of registration and login *)
(* ===================================================================== *)

Module AuthProps.
Import Py Database DatabaseProps Auth.

Section Auth.
Variable hashpw : string -> string -> result string.
Variable checkpw : string -> string -> result bool.
Variable jwt_encode : Payload -> string.

(** X20.  [register_user] never touches an account that exists: every row
    of the table is the same afterwards.  A name that is taken is refused
    as such whatever its length and the password; when the call reports
    failure the table is unchanged. *)
Theorem register_user_keeps_accounts
        (username password salt : string) (now : Time) (t : Store) :
  (forall name row,
      users t !! name = Some row ->
      users (register_user hashpw username password salt now t).1 !! name
      = Some row)
  /\ (is_Some (users t !! username) ->
      register_user hashpw username password salt now t
      = (t, (false, "Username already exists", None)))
  /\ ((register_user hashpw username password salt now t).2.1.1 = false ->
      (register_user hashpw username password salt now t).1 = t).
Proof.
  unfold register_user, hash_password.
  destruct (users t !! username) as [row|] eqn:Hrow.
  { split; [done|]. by split. }
  destruct (len username <? 3); [by repeat split; try done; intros []|].
  destruct (len password <? 6); [by repeat split; try done; intros []|].
  destruct (hashpw password salt) as [h|e];
    [|by repeat split; try done; intros []].
  cbn [fst snd users]. split.
  - intros name row' Hname. rewrite lookup_insert_ne; [done|].
    intros <-. congruence.
  - split; [by intros []|done].
Qed.

(** X21.  A name that is free, of 3 to 50 characters, with a password of at
    least 6 characters whose hash can be made (at most 255 characters)
    registers: the call reports success with the id of the new row.  When
    [checkpw] accepts the password against that hash, logging in with the
    same name and password succeeds and gives the same id and a token for
    this id and name that expires 24 hours after the login. *)
Theorem register_then_login
        (username password salt hash : string) (now later : Time)
        (t : Store) :
  users t !! username = None ->
  3 <= len username <= 50 ->
  6 <= len password ->
  hashpw password salt = Ok hash ->
  len hash <= 255 ->
  checkpw password hash = Ok true ->
  (register_user hashpw username password salt now t).2
    = (true, "Registration successful!", Some (next_user_id t))
  /\ users (register_user hashpw username password salt now t).1 !! username
     = Some (mkUser (next_user_id t) hash now)
  /\ login_user checkpw jwt_encode username password later
       (register_user hashpw username password salt now t).1
     = (true, "Login successful!",
        Some (jwt_encode (mkPayload (next_user_id t) username
                                    (later + 24 * 3600))),
        Some (next_user_id t)).
Proof.
  intros Hfree [Hmin _] Hpw Hhash _ Hcheck.
  unfold register_user, hash_password. rewrite Hfree, Hhash.
  destruct (Nat.ltb_spec (len username) 3); [lia|].
  destruct (Nat.ltb_spec (len password) 6); [lia|].
  cbn [fst snd users]. split; [done|]. split; [apply lookup_insert_eq|].
  unfold login_user, verify_password, create_token. cbn [users].
  rewrite lookup_insert_eq. cbn [password_hash uid]. by rewrite Hcheck.
Qed.

(** X22.  [login_user] answers an unknown name and a wrong password with
    the same result, so a failed login does not tell whether the name
    exists; it reports success only for a name of the table whose stored
    hash [checkpw] accepts, and then returns the id of that row. *)
Theorem login_user_failures_alike
        (username password : string) (now : Time) (t : Store) :
  (users t !! username = None ->
   login_user checkpw jwt_encode username password now t
   = (false, "Invalid username or password", None, None))
  /\ (forall user,
        users t !! username = Some user ->
        checkpw password (password_hash user) = Ok false ->
        login_user checkpw jwt_encode username password now t
        = (false, "Invalid username or password", None, None))
  /\ ((login_user checkpw jwt_encode username password now t).1.1.1 = true ->
      exists user,
        users t !! username = Some user
        /\ checkpw password (password_hash user) = Ok true
        /\ (login_user checkpw jwt_encode username password now t).2
           = Some (uid user)).
Proof.
  unfold login_user, verify_password.
  destruct (users t !! username) as [user|] eqn:Huser.
  - split; [done|]. split.
    + intros user' [= <-] Hcheck. by rewrite Hcheck.
    + destruct (checkpw password (password_hash user)) as [[|]|e] eqn:Hc;
        cbn; try done. intros _. by exists user.
  - split; [done|]. split; [done|]. cbn. done.
Qed.

(** The accounts have different ids, all below the sequence. *)
Definition ids_distinct (t : Store) : Prop :=
  (forall name row, users t !! name = Some row -> uid row < next_user_id t)
  /\ (forall name1 name2 row1 row2,
        users t !! name1 = Some row1 ->
        users t !! name2 = Some row2 ->
        uid row1 = uid row2 -> name1 = name2).

Lemma ids_distinct_register username password salt now t :
  ids_distinct t ->
  ids_distinct (register_user hashpw username password salt now t).1.
Proof.
  intros [Hlt Hinj]. unfold register_user, hash_password.
  destruct (users t !! username) as [row|] eqn:Hrow; [done|].
  destruct (len username <? 3); [done|].
  destruct (len password <? 6); [done|].
  destruct (hashpw password salt) as [h|e]; [|done].
  cbn [fst]. split; cbn [users next_user_id].
  - intros name row'. destruct (decide (name = username)) as [->|Hne].
    + rewrite lookup_insert_eq. intros [= <-]. cbn. lia.
    + rewrite lookup_insert_ne by done. intros H.
      specialize (Hlt _ _ H). lia.
  - intros name1 name2 row1 row2.
    destruct (decide (name1 = username)) as [->|Hne1];
      destruct (decide (name2 = username)) as [->|Hne2]; [done| | |].
    + rewrite lookup_insert_eq, lookup_insert_ne by done.
      intros [= <-] H2 Hid. cbn in Hid. specialize (Hlt _ _ H2). lia.
    + rewrite lookup_insert_ne, lookup_insert_eq by done.
      intros H1 [= <-] Hid. cbn in Hid. specialize (Hlt _ _ H1). lia.
    + rewrite !lookup_insert_ne by done. apply Hinj.
Qed.

(** X23.  Whatever registrations are attempted on an empty table, no two
    accounts get the same id. *)
Theorem user_ids_distinct
        (attempts : list (string * string * string * Time)) :
  ids_distinct
    (foldl (fun t a =>
              match a with
              | (username, password, salt, now) =>
                  (register_user hashpw username password salt now t).1
              end)
           empty_store attempts).
Proof.
  assert (H : forall t, ids_distinct t ->
              ids_distinct
                (foldl (fun t a =>
                          match a with
                          | (username, password, salt, now) =>
                              (register_user hashpw username password salt
                                             now t).1
                          end) t attempts)).
  { induction attempts as [|[[[u p] s] n] attempts IH]; intros t Ht;
      cbn [foldl]; [done|].
    by apply IH, ids_distinct_register. }
  apply H. split.
  - intros name row Hrow. cbn in Hrow. by rewrite lookup_empty in Hrow.
  - intros name1 name2 row1 row2 Hrow. cbn in Hrow.
    by rewrite lookup_empty in Hrow.
Qed.
End Auth.

(** Stand-ins for the check of bcrypt and for the token, for the examples,
    to go with [toy_hashpw]. *)
Definition toy_checkpw (password hashed : string) : result bool :=
  Ok (String.eqb (String.substring (len hashed - len password) (len password)
                                   hashed)
                 password).
Definition toy_jwt (p : Payload) : string :=
  payload_username p +:+ "@" +:+ str_of_nat (exp p).

Lemma register_user_keeps_accounts_witness :
  is_Some (users (register_user toy_hashpw "testuser" "password123" "$2b$"
                                3 empty_store).1 !! "testuser")
  /\ register_user toy_hashpw "testuser" "x" "$2b$" 4
       (register_user toy_hashpw "testuser" "password123" "$2b$" 3 empty_store).1
     = ((register_user toy_hashpw "testuser" "password123" "$2b$" 3
                       empty_store).1,
        (false, "Username already exists", None)).
Proof.
  assert (Htaken : is_Some (users (register_user toy_hashpw "testuser"
                                     "password123" "$2b$" 3 empty_store).1
                              !! "testuser"))
    by (vm_compute; by eexists).
  split; [exact Htaken|].
  exact (proj1 (proj2 (register_user_keeps_accounts toy_hashpw "testuser" "x"
                         "$2b$" 4 _)) Htaken).
Defined.

Lemma register_then_login_witness :
  users empty_store !! "testuser" = None
  /\ login_user toy_checkpw toy_jwt "testuser" "password123" 10
       (register_user toy_hashpw "testuser" "password123" "$2b$" 3 empty_store).1
     = (true, "Login successful!",
        Some (toy_jwt (mkPayload 1 "testuser" (10 + 24 * 3600))), Some 1).
Proof.
  assert (Hname : 3 <= len "testuser" <= 50) by (cbn; lia).
  assert (Hpw : 6 <= len "password123") by (cbn; lia).
  assert (Hlen : len "$2b$password123" <= 255) by (cbn; lia).
  split; [reflexivity|].
  exact (proj2 (proj2 (register_then_login toy_hashpw toy_checkpw toy_jwt
                         "testuser" "password123" "$2b$" "$2b$password123"
                         3 10 empty_store eq_refl Hname Hpw eq_refl Hlen
                         eq_refl))).
Defined.

Lemma login_user_failures_alike_witness :
  users empty_store !! "nobody" = None
  /\ login_user toy_checkpw toy_jwt "nobody" "password123" 10 empty_store
     = (false, "Invalid username or password", None, None).
Proof.
  split; [reflexivity|].
  exact (proj1 (login_user_failures_alike toy_checkpw toy_jwt "nobody"
                  "password123" 10 empty_store) eq_refl).
Defined.

End AuthProps.
